(** * A software 3D renderer and its character controller

    Shallow embedding of the rendering pipeline, the procedural level
    builder, the character controller and the chase camera of [sm64.py].

    Python's [float] is IEEE-754 binary64 and its [int] is unbounded.  The
    program is translated once, against an interface of scalar operations
    ([Scalar]), and that interface has two instances:

    - [binary64]: Rocq's primitive floats, which are binary64 with
      round-to-nearest-even, so the translation evaluates to the very
      values CPython computes;
    - [exactQ]: the rationals, the arithmetic the program's laws (friction,
      smoothing, shading) are written for, without rounding.

    The C library's [sin], [cos], [atan2] and the constant [pi] are not
    modelled: they form a second interface, [Libm], over which every
    statement quantifies. *)

From Stdlib Require Import ZArith QArith Qpower Qabs Qround Lia Lqa List Bool.
From Stdlib Require Import Permutation Sorted.
From Stdlib Require Import Floats.
Import ListNotations.

Set Implicit Arguments.
Set Warnings "-inexact-float".

(* ================================================================== *)
(** ** Scalars *)

(** The operations the program applies to numbers that may be floats.
    [ftrunc] is Python's [int(x)]: truncation toward zero, an exception
    ([None]) on a NaN or an infinity.  Python's [/] raises on a zero
    divisor where IEEE division returns an infinity or a NaN; the program
    divides by literals, by depths clamped to at least 0.1, and by a
    segment count that [angle_step] tests first. *)
Class Scalar (F : Type) : Type := {
  of_Z   : Z -> F;
  fadd   : F -> F -> F;
  fsub   : F -> F -> F;
  fmul   : F -> F -> F;
  fdiv   : F -> F -> F;
  fneg   : F -> F;
  fltb   : F -> F -> bool;
  feqb   : F -> F -> bool;
  ftrunc : F -> option Z
}.

(** [math.sin], [math.cos], [math.atan2], [math.pi].  On a double that is
    an infinity [math.sin] and [math.cos] raise [ValueError]; the interface
    gives them a value there all the same, so a statement about every
    double carries the hypothesis that the angle is not an infinity where
    the program takes its sine or cosine.  A finite angle and a NaN raise
    nothing. *)
Class Libm (F : Type) : Type := {
  fsin   : F -> F;
  fcos   : F -> F;
  fatan2 : F -> F -> F;
  fpi    : F
}.

Declare Scope scalar_scope.
Delimit Scope scalar_scope with F.
Infix "+" := fadd : scalar_scope.
Infix "-" := fsub : scalar_scope.
Infix "*" := fmul : scalar_scope.
Infix "/" := fdiv : scalar_scope.
Notation "- a" := (fneg a) : scalar_scope.
Infix "<?" := fltb : scalar_scope.
Notation "a >? b" := (fltb b a) (only parsing) : scalar_scope.
Infix "=?" := feqb : scalar_scope.

(** *** Exact rationals *)

(** [int(q)] on a rational: the quotient rounded toward zero. *)
Definition Qtrunc (q : Q) : Z := Z.quot (Qnum q) (Zpos (Qden q)).

Definition Qltb (a b : Q) : bool := negb (Qle_bool b a).

#[export] Instance exactQ : Scalar Q := {|
  of_Z   := inject_Z;
  fadd   := Qplus;
  fsub   := Qminus;
  fmul   := Qmult;
  fdiv   := Qdiv;
  fneg   := Qopp;
  fltb   := Qltb;
  feqb   := Qeq_bool;
  ftrunc := fun q => Some (Qtrunc q)
|}.

(** *** IEEE-754 binary64 *)

(** An integer converted to the nearest double, as CPython does in mixed
    arithmetic. *)
Definition Z2float (n : Z) : float :=
  SF2Prim (binary_normalize prec emax n 0 false).

(** [int(x)] on a double. *)
Definition float_trunc (x : float) : option Z :=
  match Prim2SF x with
  | S754_zero _ => Some 0%Z
  | S754_finite s m e =>
      let a := match e with
               | Zneg p => Z.shiftr (Zpos m) (Zpos p)
               | _ => Z.shiftl (Zpos m) e
               end in
      Some (if s then Z.opp a else a)
  | _ => None
  end.

#[export] Instance binary64 : Scalar float := {|
  of_Z   := Z2float;
  fadd   := PrimFloat.add;
  fsub   := PrimFloat.sub;
  fmul   := PrimFloat.mul;
  fdiv   := PrimFloat.div;
  fneg   := PrimFloat.opp;
  fltb   := PrimFloat.ltb;
  feqb   := PrimFloat.eqb;
  ftrunc := float_trunc
|}.

(* ================================================================== *)
(** ** Math engine *)

Module Vector3.
Record t (F : Type) : Type := new { x : F; y : F; z : F }.
Arguments new {F} _ _ _.
Arguments x {F} _.
Arguments y {F} _.
Arguments z {F} _.
End Vector3.

(** An RGB colour is a tuple of three Python integers. *)
Definition Color : Type := (Z * Z * Z)%type.

Module Triangle.
Record t (F : Type) : Type :=
  mk { v1 : Vector3.t F; v2 : Vector3.t F; v3 : Vector3.t F;
       color : Color; z_depth : F }.
Arguments mk {F} _ _ _ _ _.
Arguments v1 {F} _.
Arguments v2 {F} _.
Arguments v3 {F} _.
Arguments color {F} _.
Arguments z_depth {F} _.
End Triangle.

Section Engine.
Context {F : Type} {SF : Scalar F}.
Local Open Scope scalar_scope.

(** A decimal literal [m / 10^e] of the source.  Both [m] and [10^e] are
    exact doubles for the literals of this program, so one correctly
    rounded division yields the double CPython parses. *)
Definition dec (m : Z) (e : nat) : F := of_Z m / of_Z (10 ^ Z.of_nat e).

(** Python's [max(a, b)] and [min(a, b)] on two arguments: the first
    argument is kept unless the second compares strictly beyond it. *)
Definition py_max (a b : F) : F := if b >? a then b else a.
Definition py_min (a b : F) : F := if b <? a then b else a.

(** [Triangle.__init__] *)
Definition Triangle_init (v1 v2 v3 : Vector3.t F) (color : Color) : Triangle.t F :=
  Triangle.mk v1 v2 v3 color (of_Z 0).

(** What [project_triangle] returns when it does not return [None]. *)
Definition ScreenTri : Type := (F * list (F * F) * Color)%type.

Definition near_threshold : F := of_Z 5.
Definition fov : F := of_Z 300.
Definition depth_epsilon : F := dec 1 1.           (* 0.1 *)
Definition third : F := dec 33333 5.               (* 0.33333 *)

(** Steps 1 and 2 of [project_triangle] for one vertex: the rotated X,
    the camera-relative Y and the rotated Z (the depth). *)
Definition camera_space (v : Vector3.t F) (cam_x cam_y cam_z cos_yaw sin_yaw : F)
  : F * F * F :=
  let x := Vector3.x v - cam_x in
  let y := Vector3.y v - cam_y in
  let z := Vector3.z v - cam_z in
  (x * cos_yaw - z * sin_yaw, y, x * sin_yaw + z * cos_yaw).

(** Step 3: all three depths are below the near threshold. *)
Definition near_rejected (rz1 rz2 rz3 : F) : bool :=
  (rz1 <? near_threshold) && (rz2 <? near_threshold) && (rz3 <? near_threshold).

(** Step 5: all three points lie beyond the same loose bound. *)
Definition bounds_rejected (sx1 sy1 sx2 sy2 sx3 sy3 : F) (width height : Z) : bool :=
  ((sx1 <? of_Z (- width)) && (sx2 <? of_Z (- width)) && (sx3 <? of_Z (- width)))
  || ((sx1 >? of_Z (width * 2)) && (sx2 >? of_Z (width * 2)) && (sx3 >? of_Z (width * 2)))
  || ((sy1 <? of_Z (- height)) && (sy2 <? of_Z (- height)) && (sy3 <? of_Z (- height)))
  || ((sy1 >? of_Z (height * 2)) && (sy2 >? of_Z (height * 2)) && (sy3 >? of_Z (height * 2))).

Definition project_triangle (tri : Triangle.t F)
    (cam_x cam_y cam_z cos_yaw sin_yaw : F) (width height : Z) (half_w half_h : F)
  : option ScreenTri :=
  let '(rx1, y1, rz1) := camera_space (Triangle.v1 tri) cam_x cam_y cam_z cos_yaw sin_yaw in
  let '(rx2, y2, rz2) := camera_space (Triangle.v2 tri) cam_x cam_y cam_z cos_yaw sin_yaw in
  let '(rx3, y3, rz3) := camera_space (Triangle.v3 tri) cam_x cam_y cam_z cos_yaw sin_yaw in
  if near_rejected rz1 rz2 rz3 then None else
  let rz1 := py_max rz1 depth_epsilon in
  let rz2 := py_max rz2 depth_epsilon in
  let rz3 := py_max rz3 depth_epsilon in
  let sx1 := (rx1 * fov) / rz1 + half_w in
  let sy1 := (- (y1 * fov)) / rz1 + half_h in
  let sx2 := (rx2 * fov) / rz2 + half_w in
  let sy2 := (- (y2 * fov)) / rz2 + half_h in
  let sx3 := (rx3 * fov) / rz3 + half_w in
  let sy3 := (- (y3 * fov)) / rz3 + half_h in
  if bounds_rejected sx1 sy1 sx2 sy2 sx3 sy3 width height then None else
  let avg_z := (rz1 + rz2 + rz3) * third in
  Some (avg_z, [(sx1, sy1); (sx2, sy2); (sx3, sy3)], Triangle.color tri).


(** The arguments of [project_triangle] other than the triangle: the
    camera, the cosine and sine of its yaw, and the viewport. *)
Record View : Type := {
  cam_x : F; cam_y : F; cam_z : F;
  cos_yaw : F; sin_yaw : F;
  width : Z; height : Z;
  half_w : F; half_h : F
}.

Definition project (vw : View) (tri : Triangle.t F) : option ScreenTri :=
  project_triangle tri (cam_x vw) (cam_y vw) (cam_z vw) (cos_yaw vw) (sin_yaw vw)
                   (width vw) (height vw) (half_w vw) (half_h vw).

(** The camera-relative depth of a vertex, after the yaw rotation. *)
Definition depth (vw : View) (v : Vector3.t F) : F :=
  snd (camera_space v (cam_x vw) (cam_y vw) (cam_z vw) (cos_yaw vw) (sin_yaw vw)).

(** That depth clamped from below by the epsilon. *)
Definition clamped_depth (vw : View) (v : Vector3.t F) : F :=
  py_max (depth vw v) depth_epsilon.

(** The perspective divide of a vertex by its clamped depth. *)
Definition screen_point (vw : View) (v : Vector3.t F) : F * F :=
  let '(rx, y, _) :=
    camera_space v (cam_x vw) (cam_y vw) (cam_z vw) (cos_yaw vw) (sin_yaw vw) in
  ((rx * fov) / clamped_depth vw v + half_w vw,
   (- (y * fov)) / clamped_depth vw v + half_h vw).

(** The triangle passes the near-plane test. *)
Definition passes_near (vw : View) (tri : Triangle.t F) : bool :=
  negb (near_rejected (depth vw (Triangle.v1 tri)) (depth vw (Triangle.v2 tri))
                      (depth vw (Triangle.v3 tri))).

(** The triangle's projected points pass the loose screen-bounds test. *)
Definition passes_bounds (vw : View) (tri : Triangle.t F) : bool :=
  let '(sx1, sy1) := screen_point vw (Triangle.v1 tri) in
  let '(sx2, sy2) := screen_point vw (Triangle.v2 tri) in
  let '(sx3, sy3) := screen_point vw (Triangle.v3 tri) in
  negb (bounds_rejected sx1 sy1 sx2 sy2 sx3 sy3 (width vw) (height vw)).

(** The mean of three depths, as the sum divided by three. *)
Definition mean3 (a b c : F) : F := (a + b + c) / of_Z 3.

(* ================================================================ *)
(** ** Level builder helpers *)

(** The builders append to the caller's list [tris]; here each takes
    the list and returns it extended.  A builder that CPython aborts with
    an exception returns [None]. *)
Definition bind {A B : Type} (m : option A) (k : A -> option B) : option B :=
  match m with Some a => k a | None => None end.

(** [range(n)] *)
Definition range (n : Z) : list Z := map Z.of_nat (seq 0 (Z.to_nat n)).

(** [for a in xs: s = body(a, s)], for a body that cannot fail and for
    one that can. *)
Definition for_each {A S : Type} (xs : list A) (body : A -> S -> S) (s : S) : S :=
  fold_left (fun s a => body a s) xs s.

Fixpoint for_each_opt {A S : Type} (xs : list A) (body : A -> S -> option S) (s : S)
  : option S :=
  match xs with
  | [] => Some s
  | a :: r => bind (body a s) (for_each_opt r body)
  end.

Definition add_box (tris : list (Triangle.t F)) (cx by_ cz w h d : F)
    (top_col front_col side_col : Color) : list (Triangle.t F) :=
  let hw := w * dec 5 1 in
  let hd := d * dec 5 1 in
  let x0 := cx - hw in let x1 := cx + hw in
  let y0 := by_ in     let y1 := by_ + h in
  let z0 := cz - hd in let z1 := cz + hd in
  let v_bl_f := Vector3.new x0 y0 z0 in let v_br_f := Vector3.new x1 y0 z0 in
  let v_tl_f := Vector3.new x0 y1 z0 in let v_tr_f := Vector3.new x1 y1 z0 in
  let v_bl_b := Vector3.new x0 y0 z1 in let v_br_b := Vector3.new x1 y0 z1 in
  let v_tl_b := Vector3.new x0 y1 z1 in let v_tr_b := Vector3.new x1 y1 z1 in
  tris ++
  [ Triangle_init v_tl_f v_tr_f v_tr_b top_col;      (* Top *)
    Triangle_init v_tl_f v_tr_b v_tl_b top_col;
    Triangle_init v_bl_f v_br_f v_tr_f front_col;    (* Front *)
    Triangle_init v_bl_f v_tr_f v_tl_f front_col;
    Triangle_init v_br_b v_bl_b v_tl_b front_col;    (* Back *)
    Triangle_init v_br_b v_tl_b v_tr_b front_col;
    Triangle_init v_bl_b v_bl_f v_tl_f side_col;     (* Left *)
    Triangle_init v_bl_b v_tl_f v_tl_b side_col;
    Triangle_init v_br_f v_br_b v_tr_b side_col;     (* Right *)
    Triangle_init v_br_f v_tr_b v_tr_f side_col ].

Context {LM : Libm F}.

(** [(2 * math.pi) / segments]: CPython raises [ZeroDivisionError] when
    [segments] is zero. *)
Definition angle_step (segments : Z) : option F :=
  if (segments =? 0)%Z then None else Some ((of_Z 2 * fpi) / of_Z segments).

(** The list [cache] of the ring's [(cos, sin) * radius] samples. *)
Definition ring_cache (step radius : F) (segments : Z) : list (F * F) :=
  map (fun i => (fcos (of_Z i * step) * radius, fsin (of_Z i * step) * radius))
      (range (segments + 1)).

Definition cache_at (cache : list (F * F)) (i : Z) : F * F :=
  nth (Z.to_nat i) cache (of_Z 0, of_Z 0).

Definition add_cylinder (tris : list (Triangle.t F)) (cx by_ cz radius height : F)
    (segments : Z) (top_col side_col : Color) : option (list (Triangle.t F)) :=
  bind (angle_step segments) (fun step =>
  let top_y := by_ + height in
  let cache := ring_cache step radius segments in
  let center_top := Vector3.new cx top_y cz in
  Some (for_each (range segments) (fun i tris =>
    let '(x0, z0) := cache_at cache i in
    let '(x1, z1) := cache_at cache (i + 1) in
    let t0 := Vector3.new (cx + x0) top_y (cz + z0) in
    let t1 := Vector3.new (cx + x1) top_y (cz + z1) in
    let b0 := Vector3.new (cx + x0) by_ (cz + z0) in
    let b1 := Vector3.new (cx + x1) by_ (cz + z1) in
    tris ++ [ Triangle_init center_top t1 t0 top_col;
              Triangle_init t0 t1 b1 side_col;
              Triangle_init t0 b1 b0 side_col ]) tris)).

Definition add_cone (tris : list (Triangle.t F)) (cx by_ cz radius height : F)
    (segments : Z) (color : Color) : option (list (Triangle.t F)) :=
  bind (angle_step segments) (fun step =>
  let apex := Vector3.new cx (by_ + height) cz in
  let cache := ring_cache step radius segments in
  Some (for_each (range segments) (fun i tris =>
    let '(x0, z0) := cache_at cache i in
    let '(x1, z1) := cache_at cache (i + 1) in
    let b0 := Vector3.new (cx + x0) by_ (cz + z0) in
    let b1 := Vector3.new (cx + x1) by_ (cz + z1) in
    tris ++ [ Triangle_init b0 b1 apex color ]) tris)).


Definition WHITE : Color := (255, 255, 255)%Z.
Definition RED : Color := (220, 20, 60)%Z.
Definition BLUE : Color := (0, 0, 200)%Z.
Definition YELLOW : Color := (255, 215, 0)%Z.
Definition GOLD : Color := (218, 165, 32)%Z.
Definition CASTLE_STONE : Color := (220, 215, 205)%Z.
Definition CASTLE_DARK : Color := (160, 155, 145)%Z.
Definition CASTLE_ROOF : Color := (190, 50, 50)%Z.
Definition TOWER_COLOR : Color := (230, 220, 210)%Z.
Definition GRASS_GREEN : Color := (60, 180, 60)%Z.
Definition DARK_GREEN : Color := (30, 100, 30)%Z.
Definition WATER_BLUE : Color := (60, 120, 240)%Z.
Definition COBBLE : Color := (150, 145, 135)%Z.
Definition WOOD_BROWN : Color := (120, 80, 40)%Z.
Definition WINDOW_BLUE : Color := (100, 180, 255)%Z.
Definition FLAG_RED : Color := (220, 30, 40)%Z.
Definition SKIN_COLOR : Color := (255, 200, 170)%Z.
Definition HAIR_COLOR : Color := (70, 40, 10)%Z.

Definition add_flag (tris : list (Triangle.t F)) (cx by_ cz : F) : list (Triangle.t F) :=
  let tris := add_box tris cx by_ cz (of_Z 3) (of_Z 35) (of_Z 3) WHITE WHITE WHITE in
  let v1 := Vector3.new cx (by_ + of_Z 28) (cz + of_Z 2) in
  let v2 := Vector3.new (cx + of_Z 22) (by_ + of_Z 24) (cz + of_Z 2) in
  let v3 := Vector3.new cx (by_ + of_Z 20) (cz + of_Z 2) in
  tris ++ [ Triangle_init v1 v2 v3 FLAG_RED ].

(** [length] and [count] are Python integers at every call, so
    [length / (count * 2 - 1)] is a true division by an odd number. *)
Definition add_battlements (tris : list (Triangle.t F)) (cx by_ cz : F) (length : Z)
    (is_z_axis : bool) (col : Color) (count : Z) : list (Triangle.t F) :=
  let merlon_w := of_Z length / of_Z (count * 2 - 1) in
  let h := of_Z 22 in
  let d := of_Z 16 in
  let start_offset := of_Z (- length) / of_Z 2 + merlon_w / of_Z 2 in
  for_each (range count) (fun i tris =>
    let pos := start_offset + of_Z i * merlon_w * of_Z 2 in
    if is_z_axis
    then add_box tris cx by_ (cz + pos) d h merlon_w col CASTLE_DARK CASTLE_DARK
    else add_box tris (cx + pos) by_ cz merlon_w h d col CASTLE_DARK CASTLE_DARK) tris.

Definition add_peach_tower (tris : list (Triangle.t F)) (cx by_ cz radius height roof_height : F)
    (wall_color roof_color : Color) : option (list (Triangle.t F)) :=
  let segs := 8%Z in
  bind (add_cylinder tris cx by_ cz radius height segs wall_color wall_color) (fun tris =>
  bind (add_cone tris cx (by_ + height) cz (radius * dec 125 2) roof_height segs roof_color)
    (fun tris =>
  let tris := add_flag tris cx (by_ + height + roof_height + of_Z 5) cz in
  Some (for_each (range 6) (fun i tris =>
    let ang := of_Z i * (fpi / of_Z 3) in
    let wx := cx + fcos ang * radius * dec 85 2 in
    let wz := cz + fsin ang * radius * dec 85 2 in
    add_box tris wx (by_ + height * dec 4 1 + of_Z (i * 18)) wz
            (of_Z 14) (of_Z 18) (of_Z 14) WINDOW_BLUE WINDOW_BLUE WINDOW_BLUE) tris))).

(* ================================================================== *)
(** ** Level *)

(** An [add_box] call whose six numeric arguments are integer literals. *)
Definition box (cx by_ cz w h d : Z) (top_col front_col side_col : Color)
    (tris : list (Triangle.t F)) : list (Triangle.t F) :=
  add_box tris (of_Z cx) (of_Z by_) (of_Z cz) (of_Z w) (of_Z h) (of_Z d)
          top_col front_col side_col.

(** [Level.build], on the list [t = self.triangles]. *)
Definition Level_build (t : list (Triangle.t F)) : option (list (Triangle.t F)) :=
  (* Environment *)
  let t := box 0 (-12) 0 1800 12 1800 GRASS_GREEN DARK_GREEN DARK_GREEN t in
  let t := box 0 (-11) 120 180 3 920 COBBLE COBBLE COBBLE t in
  bind (add_cylinder t (of_Z 0) (of_Z (-11)) (of_Z 80) (of_Z 280) (of_Z 3) 14 COBBLE COBBLE)
    (fun t =>
  (* Moat *)
  let t := box 0 (-9) (-140) 820 9 180 WATER_BLUE WATER_BLUE WATER_BLUE t in
  let t := box (-410) (-9) 180 40 9 720 WATER_BLUE WATER_BLUE WATER_BLUE t in
  let t := box 410 (-9) 180 40 9 720 WATER_BLUE WATER_BLUE WATER_BLUE t in
  (* Bridge *)
  let t := box 0 (-8) (-80) 110 6 180 WOOD_BROWN WOOD_BROWN WOOD_BROWN t in
  let t := box (-48) (-3) (-80) 8 12 160 WOOD_BROWN WOOD_BROWN WOOD_BROWN t in
  let t := box 48 (-3) (-80) 8 12 160 WOOD_BROWN WOOD_BROWN WOOD_BROWN t in
  (* Front stairs *)
  let t := for_each (range 6) (fun step t =>
             let w := (92 - step * 8)%Z in
             box 0 (-8 + step * 5) (-120 - step * 12) w 5 40
                 CASTLE_STONE CASTLE_STONE CASTLE_DARK t) t in
  (* Walls *)
  let wall_h := 92%Z in
  let t := box (-310) 0 (-170) 260 wall_h 38 CASTLE_STONE CASTLE_STONE CASTLE_DARK t in
  let t := box 310 0 (-170) 260 wall_h 38 CASTLE_STONE CASTLE_STONE CASTLE_DARK t in
  let t := box (-420) 0 160 38 wall_h 720 CASTLE_STONE CASTLE_DARK CASTLE_STONE t in
  let t := box 420 0 160 38 wall_h 720 CASTLE_STONE CASTLE_DARK CASTLE_STONE t in
  let t := add_battlements t (of_Z (-310)) (of_Z wall_h) (of_Z (-170)) 240 false CASTLE_STONE 5 in
  let t := add_battlements t (of_Z 310) (of_Z wall_h) (of_Z (-170)) 240 false CASTLE_STONE 5 in
  let t := add_battlements t (of_Z (-420)) (of_Z wall_h) (of_Z 160) 700 true CASTLE_STONE 9 in
  let t := add_battlements t (of_Z 420) (of_Z wall_h) (of_Z 160) 700 true CASTLE_STONE 9 in
  (* Corner towers *)
  bind (for_each_opt [(-380, -160); (380, -160); (-380, 520); (380, 520)]%Z
          (fun '(tx, tz) t =>
             add_peach_tower t (of_Z tx) (of_Z 0) (of_Z tz) (of_Z 58) (of_Z 108) (of_Z 68)
                             TOWER_COLOR CASTLE_ROOF) t)
    (fun t =>
  (* Main castle *)
  let c_z := 210%Z in
  let t := box 0 0 c_z 520 145 340 CASTLE_STONE CASTLE_STONE CASTLE_STONE t in
  let t := box (-240) 0 (c_z - 80) 120 95 180 CASTLE_STONE CASTLE_STONE CASTLE_DARK t in
  let t := box 240 0 (c_z - 80) 120 95 180 CASTLE_STONE CASTLE_STONE CASTLE_DARK t in
  bind (add_cylinder t (of_Z 0) (of_Z 0) (of_Z (c_z + 25)) (of_Z 92) (of_Z 310) 14
                     TOWER_COLOR TOWER_COLOR)
    (fun t =>
  bind (add_cone t (of_Z 0) (of_Z 310) (of_Z (c_z + 25)) (of_Z 108) (of_Z 135) 14 CASTLE_ROOF)
    (fun t =>
  let t := add_flag t (of_Z 0) (of_Z (310 + 135 + 8)) (of_Z (c_z + 25)) in
  (* Window *)
  let t := box 0 165 (c_z - 165) 78 92 14 (240, 180, 220)%Z WINDOW_BLUE WINDOW_BLUE t in
  (* Inner towers *)
  bind (for_each_opt [(-235, c_z - 155); (235, c_z - 155);
                      (-235, c_z + 155); (235, c_z + 155)]%Z
          (fun '(tx, tz) t =>
             add_peach_tower t (of_Z tx) (of_Z 0) (of_Z tz) (of_Z 62) (of_Z 195) (of_Z 85)
                             TOWER_COLOR CASTLE_ROOF) t)
    (fun t =>
  (* Trees *)
  bind (for_each_opt [(-210, 90); (210, 90); (-260, -70); (260, -70);
                      (-480, 300); (480, 300)]%Z
          (fun '(tx, tz) t =>
             bind (add_cylinder t (of_Z tx) (of_Z 0) (of_Z tz) (of_Z 12) (of_Z 34) 4
                                WOOD_BROWN WOOD_BROWN)
               (fun t => add_cone t (of_Z tx) (of_Z 34) (of_Z tz) (of_Z 46) (of_Z 68) 4
                                  DARK_GREEN)) t)
    (fun t =>
  (* Platforms *)
  Some (for_each [(0, 135, -35); (170, 95, -120); (-170, 95, -120)]%Z
          (fun '(p0, p1, p2) t => box p0 p1 p2 42 42 42 YELLOW GOLD GOLD t) t))))))).

(** [Level.__init__]: a fresh empty list, then [build]; the level is its
    triangle list. *)
Definition Level_init : option (list (Triangle.t F)) := Level_build [].

(** A builder only appends: what it returns is the list it was given
    followed by what it returns on the empty list. *)
Definition appends (f : list (Triangle.t F) -> list (Triangle.t F)) : Prop :=
  forall s, f s = s ++ f [].

Definition appends_opt (f : list (Triangle.t F) -> option (list (Triangle.t F))) : Prop :=
  forall s, f s = option_map (app s) (f []).

(* ================================================================== *)
(** ** Player *)

Definition GRAVITY : F := dec 12 1.        (* 1.2 *)
Definition JUMP_FORCE : F := of_Z 18.      (* 18.0 *)
Definition MOVE_SPEED : F := dec 8 1.      (* 0.8 *)
Definition RUN_SPEED : F := dec 14 1.      (* 1.4 *)
Definition FRICTION : F := dec 82 2.       (* 0.82 *)
Definition TURN_SPEED : F := dec 9 2.      (* 0.09 *)
Definition CAM_SMOOTH : F := dec 8 2.      (* 0.08 *)

Definition RENDER_WIDTH : Z := 400.
Definition RENDER_HEIGHT : Z := 300.

(** The entries of [pygame.key.get_pressed()] that the program reads. *)
Record Keys : Type := {
  K_LSHIFT : bool; K_RSHIFT : bool;
  K_UP : bool; K_w : bool; K_DOWN : bool; K_s : bool;
  K_LEFT : bool; K_a : bool; K_RIGHT : bool; K_d : bool;
  K_SPACE : bool
}.

Record Player : Type := {
  pos : Vector3.t F;
  vel : Vector3.t F;
  yaw : F;
  grounded : bool;
  walk_cycle : F
}.

(** [Player.__init__] *)
Definition Player_init (x y z : F) : Player :=
  {| pos := Vector3.new x y z;
     vel := Vector3.new (of_Z 0) (of_Z 0) (of_Z 0);
     yaw := of_Z 0; grounded := false; walk_cycle := of_Z 0 |}.

(** The locals [speed], [forward] and [turning] of [Player.update]. *)
Definition speed_of (keys : Keys) : F :=
  if K_LSHIFT keys || K_RSHIFT keys then RUN_SPEED else MOVE_SPEED.

Definition forward_of (keys : Keys) : Z :=
  let forward := 0%Z in
  let forward := if K_UP keys || K_w keys then 1%Z else forward in
  let forward := if K_DOWN keys || K_s keys then (-1)%Z else forward in
  forward.

Definition turning_of (keys : Keys) : Z :=
  let turning := 0%Z in
  let turning := if K_LEFT keys || K_a keys then 1%Z else turning in
  let turning := if K_RIGHT keys || K_d keys then (-1)%Z else turning in
  turning.

(** [Player.update] runs four groups of statements in sequence; each is
    a function on the player's fields.  First the heading, the horizontal
    impulse, the walk cycle and the friction. *)
Definition steer (keys : Keys) (p : Player) : Player :=
  let speed := speed_of keys in
  let forward := forward_of keys in
  let turning := turning_of keys in
  let yaw := yaw p + of_Z turning * TURN_SPEED in
  let '(vel_x, vel_z, walk_cycle) :=
    if negb (forward =? 0)%Z then
      (Vector3.x (vel p) + fsin yaw * speed * of_Z forward,
       Vector3.z (vel p) + fcos yaw * speed * of_Z forward,
       if grounded p
       then walk_cycle p + dec 3 1 * (if speed =? RUN_SPEED then dec 15 1 else of_Z 1)
       else walk_cycle p)
    else (Vector3.x (vel p), Vector3.z (vel p), of_Z 0) in
  {| pos := pos p;
     vel := Vector3.new (vel_x * FRICTION) (Vector3.y (vel p)) (vel_z * FRICTION);
     yaw := yaw; grounded := grounded p; walk_cycle := walk_cycle |}.

(** [if keys[K_SPACE] and self.grounded: ...] *)
Definition jump (keys : Keys) (p : Player) : Player :=
  if K_SPACE keys && grounded p
  then {| pos := pos p;
          vel := Vector3.new (Vector3.x (vel p)) JUMP_FORCE (Vector3.z (vel p));
          yaw := yaw p; grounded := false; walk_cycle := walk_cycle p |}
  else p.

(** Gravity, then the velocity added to the position. *)
Definition integrate (p : Player) : Player :=
  let vel_y := Vector3.y (vel p) - GRAVITY in
  {| pos := Vector3.new (Vector3.x (pos p) + Vector3.x (vel p))
                        (Vector3.y (pos p) + vel_y)
                        (Vector3.z (pos p) + Vector3.z (vel p));
     vel := Vector3.new (Vector3.x (vel p)) vel_y (Vector3.z (vel p));
     yaw := yaw p; grounded := grounded p; walk_cycle := walk_cycle p |}.

(** [if self.pos.y < 0: ...] *)
Definition land (p : Player) : Player :=
  if Vector3.y (pos p) <? of_Z 0
  then {| pos := Vector3.new (Vector3.x (pos p)) (of_Z 0) (Vector3.z (pos p));
          vel := Vector3.new (Vector3.x (vel p)) (of_Z 0) (Vector3.z (vel p));
          yaw := yaw p; grounded := true; walk_cycle := walk_cycle p |}
  else p.

(** [Player.update(keys, dt)]; [dt] is not read. *)
Definition Player_update (keys : Keys) (p : Player) : Player :=
  land (integrate (jump keys (steer keys p))).

(** [n] ticks, one input snapshot per tick. *)
Definition Player_run (inputs : list Keys) (p : Player) : Player :=
  fold_left (fun p keys => Player_update keys p) inputs p.

(** The vertical velocity a tick integrates: the jump impulse when the
    jump fires, the current one otherwise, less gravity. *)
Definition launch_velocity (keys : Keys) (p : Player) : F :=
  (if K_SPACE keys && grounded p then JUMP_FORCE else Vector3.y (vel p)) - GRAVITY.

(** The height a tick reaches before the floor test. *)
Definition integrated_height (keys : Keys) (p : Player) : F :=
  Vector3.y (pos p) + launch_velocity keys p.

(** The squared horizontal speed, [vel.x**2 + vel.z**2]. *)
Definition speed2 (p : Player) : F :=
  Vector3.x (vel p) * Vector3.x (vel p) + Vector3.z (vel p) * Vector3.z (vel p).

(** The step of the walk cycle for the keys pressed: 0.3, times 1.5 when
    the speed selected is the run speed. *)
Definition walk_step (keys : Keys) : F :=
  dec 3 1 * (if speed_of keys =? RUN_SPEED then dec 15 1 else of_Z 1).

(** [make_part] of [Player.get_mesh_tris]: a box of the body, turned by the
    heading and placed at the player's position. *)
Definition make_part (x y z cy sy : F) (w h d : Z) (col : Color) (ox oy oz : F)
    (tris : list (Triangle.t F)) : list (Triangle.t F) :=
  let hw := of_Z w / of_Z 2 in
  let hd := of_Z d / of_Z 2 in
  let h := of_Z h in
  let verts :=
    [ (ox - hw, oy, oz - hd); (ox + hw, oy, oz - hd);
      (ox + hw, oy + h, oz - hd); (ox - hw, oy + h, oz - hd);
      (ox - hw, oy, oz + hd); (ox + hw, oy, oz + hd);
      (ox + hw, oy + h, oz + hd); (ox - hw, oy + h, oz + hd) ] in
  let w_verts := map (fun '(vx, vy, vz) =>
                        let rx := vx * cy - vz * sy in
                        let rz := vx * sy + vz * cy in
                        Vector3.new (x + rx) (y + vy) (z + rz)) verts in
  let v := fun i => nth i w_verts (Vector3.new x y z) in
  tris ++
  [ Triangle_init (v 2%nat) (v 6%nat) (v 5%nat) col;     (* Top *)
    Triangle_init (v 2%nat) (v 5%nat) (v 1%nat) col;
    Triangle_init (v 0%nat) (v 1%nat) (v 2%nat) col;     (* Front *)
    Triangle_init (v 0%nat) (v 2%nat) (v 3%nat) col;
    Triangle_init (v 5%nat) (v 4%nat) (v 7%nat) col;     (* Back *)
    Triangle_init (v 5%nat) (v 7%nat) (v 6%nat) col;
    Triangle_init (v 4%nat) (v 0%nat) (v 3%nat) col;     (* Left *)
    Triangle_init (v 4%nat) (v 3%nat) (v 7%nat) col;
    Triangle_init (v 1%nat) (v 5%nat) (v 6%nat) col;     (* Right *)
    Triangle_init (v 1%nat) (v 6%nat) (v 2%nat) col ].

Definition get_mesh_tris (p : Player) : list (Triangle.t F) :=
  let cy := fcos (- yaw p) in
  let sy := fsin (- yaw p) in
  let leg_swing := fsin (walk_cycle p) * of_Z 4 in
  let arm_swing := fcos (walk_cycle p) * of_Z 4 in
  let part := make_part (Vector3.x (pos p)) (Vector3.y (pos p)) (Vector3.z (pos p)) cy sy in
  let tris := [] in
  (* Feet *)
  let tris := part 7%Z 5%Z 8%Z WOOD_BROWN (of_Z (-4)) (of_Z 0) leg_swing tris in
  let tris := part 7%Z 5%Z 8%Z WOOD_BROWN (of_Z 4) (of_Z 0) (- leg_swing) tris in
  (* Legs, hips *)
  let tris := part 6%Z 8%Z 6%Z BLUE (of_Z (-4)) (of_Z 5) (leg_swing * dec 5 1) tris in
  let tris := part 6%Z 8%Z 6%Z BLUE (of_Z 4) (of_Z 5) (- leg_swing * dec 5 1) tris in
  let tris := part 14%Z 6%Z 8%Z BLUE (of_Z 0) (of_Z 12) (of_Z 0) tris in
  (* Torso *)
  let tris := part 13%Z 11%Z 7%Z RED (of_Z 0) (of_Z 18) (of_Z 0) tris in
  (* Arms, hands *)
  let tris := part 4%Z 10%Z 4%Z RED (of_Z (-9)) (of_Z 18) (- arm_swing) tris in
  let tris := part 4%Z 10%Z 4%Z RED (of_Z 9) (of_Z 18) arm_swing tris in
  let tris := part 5%Z 5%Z 5%Z WHITE (of_Z (-9)) (of_Z 14) (- arm_swing - of_Z 1) tris in
  let tris := part 5%Z 5%Z 5%Z WHITE (of_Z 9) (of_Z 14) (arm_swing - of_Z 1) tris in
  (* Head, nose, hair *)
  let tris := part 10%Z 9%Z 9%Z SKIN_COLOR (of_Z 0) (of_Z 29) (of_Z 0) tris in
  let tris := part 3%Z 3%Z 3%Z SKIN_COLOR (of_Z 0) (of_Z 31) (of_Z (-5)) tris in
  let tris := part 11%Z 4%Z 10%Z HAIR_COLOR (of_Z 0) (of_Z 33) (of_Z 1) tris in
  (* Hat, brim *)
  let tris := part 12%Z 3%Z 11%Z RED (of_Z 0) (of_Z 36) (of_Z 0) tris in
  let tris := part 12%Z 2%Z 4%Z RED (of_Z 0) (of_Z 36) (of_Z (-6)) tris in
  tris.

(* ================================================================== *)
(** ** Game engine *)

Record Game : Type := {
  player : Player;
  level : list (Triangle.t F);
  cam_pos : Vector3.t F;
  cam_yaw : F;
  cam_dist : F;
  cam_pitch_height : F
}.

(** The fields [Game.__init__] sets, the pygame objects apart. *)
Definition Game_init : option Game :=
  bind Level_init (fun triangles =>
  Some {| player := Player_init (of_Z 0) (of_Z 20) (of_Z (-280));
          level := triangles;
          cam_pos := Vector3.new (of_Z 0) (of_Z 110) (of_Z (-650));
          cam_yaw := of_Z 0;
          cam_dist := of_Z 340;
          cam_pitch_height := of_Z 125 |}).

(** The game with the player's fields replaced, and with another yaw of
    the camera. *)
Definition with_player (g : Game) (p : Player) : Game :=
  {| player := p; level := level g; cam_pos := cam_pos g; cam_yaw := cam_yaw g;
     cam_dist := cam_dist g; cam_pitch_height := cam_pitch_height g |}.

Definition with_cam_yaw (g : Game) (a : F) : Game :=
  {| player := player g; level := level g; cam_pos := cam_pos g; cam_yaw := a;
     cam_dist := cam_dist g; cam_pitch_height := cam_pitch_height g |}.

(** The point the camera is drawn toward: behind the player along its
    heading, and above it. *)
Definition camera_target (g : Game) : Vector3.t F :=
  let p := player g in
  Vector3.new (Vector3.x (pos p) - fsin (yaw p) * cam_dist g)
              (Vector3.y (pos p) + cam_pitch_height g)
              (Vector3.z (pos p) - fcos (yaw p) * cam_dist g).

(** [pos += (target - pos) * CAM_SMOOTH] on one axis. *)
Definition smooth (c target : F) : F := c + (target - c) * CAM_SMOOTH.

Definition update_camera (g : Game) : Game :=
  let target := camera_target g in
  let cam := Vector3.new (smooth (Vector3.x (cam_pos g)) (Vector3.x target))
                         (smooth (Vector3.y (cam_pos g)) (Vector3.y target))
                         (smooth (Vector3.z (cam_pos g)) (Vector3.z target)) in
  let dx := Vector3.x (pos (player g)) - Vector3.x cam in
  let dz := Vector3.z (pos (player g)) - Vector3.z cam in
  {| player := player g; level := level g;
     cam_pos := cam; cam_yaw := fatan2 dx dz;
     cam_dist := cam_dist g; cam_pitch_height := cam_pitch_height g |}.

(** [screen_tris.sort(key=lambda x: x[0], reverse=True)].  [list.sort] is
    the language's, not the program's: it is stable, also under
    [reverse=True], and compares keys with [<] only.  On keys that [<]
    orders totally the result of a stable sort is unique; it is built here
    by insertion, each entry stepping over the entries of strictly greater
    depth and stopping before the first one that is not. *)
Definition depth_of (s : ScreenTri) : F := fst (fst s).

Fixpoint insert_by_depth (s : ScreenTri) (l : list ScreenTri) : list ScreenTri :=
  match l with
  | [] => [s]
  | s' :: r => if depth_of s <? depth_of s'
               then s' :: insert_by_depth s r
               else s :: s' :: r
  end.

Definition depth_sort (l : list ScreenTri) : list ScreenTri :=
  fold_right insert_by_depth [] l.

(** The depth shading of [Game.draw]. *)
Definition darkening (z : F) : F := py_min (z / of_Z 2200) (dec 65 2).

Definition shade_of (z : F) : F := of_Z 1 - darkening z.

(** [max(0, min(255, int(c * shade)))] *)
Definition shade_channel (z : F) (c : Z) : option Z :=
  bind (ftrunc (of_Z c * shade_of z)) (fun n => Some (Z.max 0 (Z.min 255 n))).

Definition shade_color (z : F) (col : Color) : option Color :=
  let '(c0, c1, c2) := col in
  bind (shade_channel z c0) (fun r =>
  bind (shade_channel z c1) (fun g =>
  bind (shade_channel z c2) (fun b => Some (r, g, b)))).

(** The projection loop of [Game.draw]: the triangles that survive. *)
Definition project_all (g : Game) (all_tris : list (Triangle.t F)) : list ScreenTri :=
  let cx := Vector3.x (cam_pos g) in
  let cy := Vector3.y (cam_pos g) in
  let cz := Vector3.z (cam_pos g) in
  let cos_yaw := fcos (cam_yaw g) in
  let sin_yaw := fsin (cam_yaw g) in
  let hw := of_Z RENDER_WIDTH / of_Z 2 in
  let hh := of_Z RENDER_HEIGHT / of_Z 2 in
  for_each all_tris (fun tri screen_tris =>
    match project_triangle tri cx cy cz cos_yaw sin_yaw RENDER_WIDTH RENDER_HEIGHT hw hh with
    | Some res => screen_tris ++ [res]
    | None => screen_tris
    end) [].

(** What one frame hands to the rasterizer: the row of the horizon, then
    the calls of [pygame.draw.polygon], colour and points, in order. *)
Definition draw (g : Game) : option (Z * list (Color * list (F * F))) :=
  let pitch_offset := (Vector3.y (cam_pos g) - of_Z 120) * dec 5 1 in
  bind (ftrunc pitch_offset) (fun po =>
  let horizon_y := (RENDER_HEIGHT / 2 + po)%Z in
  let horizon_y := Z.max 0 (Z.min RENDER_HEIGHT horizon_y) in
  let player_tris := get_mesh_tris (player g) in
  let all_tris := level g ++ player_tris in
  let screen_tris := depth_sort (project_all g all_tris) in
  bind (for_each_opt screen_tris (fun '(z, pts, col) polys =>
          bind (shade_color z col) (fun rgb => Some (polys ++ [(rgb, pts)]))) [])
       (fun polys => Some (horizon_y, polys))).

(** One turn of the loop of [Game.run], for the keys pressed. *)
Definition tick (keys : Keys) (g : Game) : Game :=
  update_camera (with_player g (Player_update keys (player g))).

(** An entry of [screen_tris] has the depth [d], by the floats' [==]. *)
Definition has_depth (d : F) (s : ScreenTri) : bool := depth_of s =? d.

(** No forward and no backward key: the local [forward] is 0. *)
Definition idle (keys : Keys) : Prop := forward_of keys = 0%Z.

End Engine.

(** [a] may be drawn before [b]: [a] is at least as far as [b]. *)
Definition far_first (a b : @ScreenTri Q) : Prop := (depth_of b <= depth_of a)%Q.

(** A colour channel after shading is one of 0..255. *)
Definition channel_ok (c : Z) : Prop := (0 <= c <= 255)%Z.

(** Channel by channel, the first colour is at most the second. *)
Definition color_le (a b : Color) : Prop :=
  let '(ar, ag, ab) := a in
  let '(br, bg, bb) := b in
  (ar <= br /\ ag <= bg /\ ab <= bb)%Z.

Definition color_ok (a : Color) : Prop :=
  let '(ar, ag, ab) := a in channel_ok ar /\ channel_ok ag /\ channel_ok ab.


(* ================================================================== *)
(** * Concrete inputs *)

Section Samples.
Context {F : Type} {SF : Scalar F}.

(** A camera at the origin looking down the Z axis (yaw 0), with the
    viewport of the game: 400 by 300. *)
Definition axis_view : View :=
  {| cam_x := of_Z 0; cam_y := of_Z 0; cam_z := of_Z 0;
     cos_yaw := of_Z 1; sin_yaw := of_Z 0;
     width := RENDER_WIDTH; height := RENDER_HEIGHT;
     half_w := of_Z 200; half_h := of_Z 150 |}.

Definition vec (x y z : Z) : Vector3.t F := Vector3.new (of_Z x) (of_Z y) (of_Z z).

(** A triangle ten units ahead of that camera. *)
Definition tri_ahead : Triangle.t F :=
  Triangle_init (vec 0 0 10) (vec 10 0 10) (vec 0 10 10) RED.

(** A triangle wholly nearer than the near threshold. *)
Definition tri_near : Triangle.t F :=
  Triangle_init (vec 0 0 1) (vec 10 0 2) (vec 0 10 4) RED.

(** A triangle with one vertex behind the camera and two ahead. *)
Definition tri_straddling : Triangle.t F :=
  Triangle_init (vec 0 0 (-3)) (vec 10 0 10) (vec 0 10 10) RED.

Definition no_keys : Keys :=
  {| K_LSHIFT := false; K_RSHIFT := false; K_UP := false; K_w := false;
     K_DOWN := false; K_s := false; K_LEFT := false; K_a := false;
     K_RIGHT := false; K_d := false; K_SPACE := false |}.

Definition press_space : Keys :=
  {| K_LSHIFT := false; K_RSHIFT := false; K_UP := false; K_w := false;
     K_DOWN := false; K_s := false; K_LEFT := false; K_a := false;
     K_RIGHT := false; K_d := false; K_SPACE := true |}.

Definition press_w : Keys :=
  {| K_LSHIFT := false; K_RSHIFT := false; K_UP := false; K_w := true;
     K_DOWN := false; K_s := false; K_LEFT := false; K_a := false;
     K_RIGHT := false; K_d := false; K_SPACE := false |}.

Definition press_shift_w : Keys :=
  {| K_LSHIFT := true; K_RSHIFT := false; K_UP := false; K_w := true;
     K_DOWN := false; K_s := false; K_LEFT := false; K_a := false;
     K_RIGHT := false; K_d := false; K_SPACE := false |}.

(** A player standing on the floor at the origin, at rest. *)
Definition standing : Player :=
  {| pos := vec 0 0 0; vel := vec 0 0 0; yaw := of_Z 0;
     grounded := true; walk_cycle := of_Z 0 |}.

(** A player on the floor gliding with the horizontal velocity (10, -5). *)
Definition gliding : Player :=
  {| pos := vec 0 0 0; vel := vec 10 0 (-5); yaw := of_Z 0;
     grounded := true; walk_cycle := of_Z 2 |}.

(** A player in the air, falling. *)
Definition falling : Player :=
  {| pos := vec 0 1 0; vel := vec 0 (-3) 0; yaw := of_Z 0;
     grounded := false; walk_cycle := of_Z 2 |}.

(** The game as it starts, without the level's triangles. *)
Definition bare_game : Game :=
  {| player := standing; level := [];
     cam_pos := vec 0 110 (-650); cam_yaw := of_Z 0;
     cam_dist := of_Z 340; cam_pitch_height := of_Z 125 |}.

(** Five projected entries with two ties of depth; the colours tell the
    tied entries apart. *)
Definition five_entries : list ScreenTri :=
  [ (of_Z 1, [], RED); (of_Z 3, [], BLUE); (of_Z 1, [], GOLD);
    (of_Z 2, [], RED); (of_Z 3, [], WHITE) ].

Definition five_entries_sorted : list ScreenTri :=
  [ (of_Z 3, [], BLUE); (of_Z 3, [], WHITE); (of_Z 2, [], RED);
    (of_Z 1, [], RED); (of_Z 1, [], GOLD) ].

End Samples.

(** The values of the trigonometric functions at the angle 0, returned at
    every angle: a [Libm] that computes, to run the program on concrete
    inputs where the statements hold for every [Libm]. *)
Definition libm_at_zero {F : Type} {SF : Scalar F} : Libm F :=
  {| fsin := fun _ => of_Z 0; fcos := fun _ => of_Z 1;
     fatan2 := fun _ _ => of_Z 0; fpi := dec 314159 5 |}.

(** A triangle with one vertex at x = 1e308, a finite double. *)
Definition tri_huge : Triangle.t float :=
  Triangle_init (Vector3.new 1e308%float 0%float 10%float) (vec 10 0 10) (vec 0 10 10) RED.

(* ================================================================== *)
(** * Vocabulary of the further properties *)

Section Vocabulary.
Context {F : Type} {SF : Scalar F} {LM : Libm F}.

(** A property of the three vertices of a triangle, and of one of them. *)
Definition all_vertices (P : Vector3.t F -> Prop) (t : Triangle.t F) : Prop :=
  P (Triangle.v1 t) /\ P (Triangle.v2 t) /\ P (Triangle.v3 t).

Definition some_vertex (P : Vector3.t F -> Prop) (t : Triangle.t F) : Prop :=
  P (Triangle.v1 t) \/ P (Triangle.v2 t) \/ P (Triangle.v3 t).

(** The keys with the jump key released. *)
Definition release_space (keys : Keys) : Keys :=
  {| K_LSHIFT := K_LSHIFT keys; K_RSHIFT := K_RSHIFT keys;
     K_UP := K_UP keys; K_w := K_w keys; K_DOWN := K_DOWN keys; K_s := K_s keys;
     K_LEFT := K_LEFT keys; K_a := K_a keys; K_RIGHT := K_RIGHT keys; K_d := K_d keys;
     K_SPACE := false |}.

Definition no_jump (keys : Keys) : Prop := K_SPACE keys = false.

(** On the floor, at rest vertically, grounded. *)
Definition landed (p : Player) : Prop :=
  Vector3.y (pos p) = of_Z 0 /\ Vector3.y (vel p) = of_Z 0 /\ grounded p = true.

(** The state after the loop of [Game.run] has turned once per entry of
    [inputs]; drawing does not change the state. *)
Definition Game_run (inputs : list Keys) (g : Game) : Game :=
  fold_left (fun g keys => tick keys g) inputs g.

(** [n] calls of [update_camera] with the player left alone. *)
Definition camera_settle (n : nat) (g : Game) : Game := Nat.iter n update_camera g.

(** The arguments [Game.draw] passes to [project_triangle]. *)
Definition draw_view (g : Game) : View :=
  {| cam_x := Vector3.x (cam_pos g); cam_y := Vector3.y (cam_pos g);
     cam_z := Vector3.z (cam_pos g);
     cos_yaw := fcos (cam_yaw g); sin_yaw := fsin (cam_yaw g);
     width := RENDER_WIDTH; height := RENDER_HEIGHT;
     half_w := fdiv (of_Z RENDER_WIDTH) (of_Z 2);
     half_h := fdiv (of_Z RENDER_HEIGHT) (of_Z 2) |}.

(** The projections that are not [None], in the order of the triangles. *)
Fixpoint survivors (vw : View) (tris : list (Triangle.t F)) : list ScreenTri :=
  match tris with
  | [] => []
  | t :: r => match project vw t with
              | Some res => res :: survivors vw r
              | None => survivors vw r
              end
  end.

End Vocabulary.

(** A point of the axis-aligned box standing on [(cx, by_, cz)]. *)
Definition in_box (cx by_ cz w h d : Q) (v : Vector3.t Q) : Prop :=
  (cx - w / 2 <= Vector3.x v /\ Vector3.x v <= cx + w / 2
   /\ by_ <= Vector3.y v /\ Vector3.y v <= by_ + h
   /\ cz - d / 2 <= Vector3.z v /\ Vector3.z v <= cz + d / 2)%Q.

(** A height between two bounds. *)
Definition height_in (lo hi : Q) (v : Vector3.t Q) : Prop :=
  (lo <= Vector3.y v /\ Vector3.y v <= hi)%Q.

(** The libm's sine and cosine stay in [-1, 1]. *)
Definition bounded_trig (LM : Libm Q) : Prop :=
  forall a : Q, (-1 <= fsin a /\ fsin a <= 1 /\ -1 <= fcos a /\ fcos a <= 1)%Q.

(** The horizontal speed the friction settles the run speed at:
    [1.4 * 0.82 / (1 - 0.82)]. *)
Definition glide_bound : Q := 287 # 45.

(** [min(z / 2200.0, 0.65)] picks the cap: the test [0.65 < z / 2200.0] of
    the program's [min] is true. *)
Definition cap_applies {F : Type} {SF : Scalar F} (z : F) : bool :=
  (dec 65 2 <? z / of_Z 2200)%F.

(** On doubles, [Player.update] reaches [math.sin] and [math.cos] only with
    a forward or backward key down, and they raise only on an infinite
    heading: the tick runs to its end when there is no such key or the
    heading, after the turn, is not an infinity. *)
Definition tick_completes (keys : Keys) (p : @Player float) : bool :=
  (forward_of keys =? 0)%Z
  || negb (is_infinity (fadd (yaw p) (fmul (of_Z (turning_of keys)) TURN_SPEED))).

(** Every tick of a run completes. *)
Fixpoint run_completes {LM : Libm float} (inputs : list Keys) (p : @Player float) : bool :=
  match inputs with
  | [] => true
  | keys :: r => tick_completes keys p && run_completes r (Player_update keys p)
  end.

(** A player whose height and vertical velocity are not numbers. *)
Definition lost_player : @Player float :=
  {| pos := Vector3.new 0%float nan 0%float; vel := Vector3.new 0%float nan 0%float;
     yaw := 0%float; grounded := false; walk_cycle := 0%float |}.

(* ================================================================== *)
(** * Exact arithmetic: the order on the rationals *)

Lemma Qltb_lt (a b : Q) : Qltb a b = true <-> a < b.
Proof.
  unfold Qltb. rewrite negb_true_iff, <- not_true_iff_false, Qle_bool_iff.
  split; [apply Qnot_le_lt | apply Qlt_not_le].
Qed.

Lemma Qltb_ge (a b : Q) : Qltb a b = false <-> b <= a.
Proof.
  unfold Qltb. rewrite negb_false_iff. apply Qle_bool_iff.
Qed.

(** Case analysis on a comparison of the exact instance. *)
Ltac case_Qltb a b :=
  let E := fresh "E" in
  destruct (Qltb a b) eqn:E; [apply Qltb_lt in E | apply Qltb_ge in E].

Lemma py_max_Q (a b : Q) : a <= py_max a b /\ b <= py_max a b.
Proof.
  unfold py_max; cbn [fltb exactQ]. case_Qltb a b; split; lra.
Qed.

Lemma py_min_Q (a b : Q) : py_min a b <= a /\ py_min a b <= b.
Proof.
  unfold py_min; cbn [fltb exactQ]. case_Qltb b a; split; lra.
Qed.

(* ================================================================== *)
(** * Properties *)

(** ** Projection: the two rejection tests and what survives them *)

Section Projection.
Context {F : Type} {SF : Scalar F}.
Local Open Scope scalar_scope.

(** [project_triangle] read as its two tests and its result. *)
Lemma project_triangle_unfold (vw : View) (tri : Triangle.t F) :
  project vw tri =
  if passes_near vw tri then
    if passes_bounds vw tri then
      Some ((clamped_depth vw (Triangle.v1 tri) + clamped_depth vw (Triangle.v2 tri)
             + clamped_depth vw (Triangle.v3 tri)) * third,
            [ screen_point vw (Triangle.v1 tri); screen_point vw (Triangle.v2 tri);
              screen_point vw (Triangle.v3 tri) ],
            Triangle.color tri)
    else None
  else None.
Proof.
  unfold project, project_triangle, passes_near, passes_bounds, screen_point,
    clamped_depth, depth, camera_space; cbn [snd fst].
  destruct (near_rejected _ _ _); cbn [negb]; [reflexivity|].
  destruct (bounds_rejected _ _ _ _ _ _ _ _); reflexivity.
Qed.

Lemma near_rejected_true_iff (d1 d2 d3 : F) :
  near_rejected d1 d2 d3 = true <->
  (d1 <? near_threshold) = true /\ (d2 <? near_threshold) = true
  /\ (d3 <? near_threshold) = true.
Proof.
  unfold near_rejected. rewrite !andb_true_iff. tauto.
Qed.

Lemma near_rejected_false_iff (d1 d2 d3 : F) :
  near_rejected d1 d2 d3 = false <->
  (d1 <? near_threshold) = false \/ (d2 <? near_threshold) = false
  \/ (d3 <? near_threshold) = false.
Proof.
  unfold near_rejected. rewrite !andb_false_iff. tauto.
Qed.

(** C2.  A triangle whose three rotated depths are all below the near
    threshold is discarded: [project_triangle] returns [None].  The three
    tests are joined by a conjunction: as soon as one depth is not below
    the threshold the near-plane test lets the triangle through, and what
    [project_triangle] returns is then decided by the screen-bounds test
    alone. *)
Theorem near_plane_rejection (vw : View) (tri : Triangle.t F) :
  let d1 := depth vw (Triangle.v1 tri) in
  let d2 := depth vw (Triangle.v2 tri) in
  let d3 := depth vw (Triangle.v3 tri) in
  ((d1 <? near_threshold) = true /\ (d2 <? near_threshold) = true
   /\ (d3 <? near_threshold) = true -> project vw tri = None)
  /\ ((d1 <? near_threshold) = false \/ (d2 <? near_threshold) = false
      \/ (d3 <? near_threshold) = false ->
      near_rejected d1 d2 d3 = false
      /\ passes_near vw tri = true
      /\ (passes_bounds vw tri = true -> project vw tri <> None)).
Proof.
  intros d1 d2 d3. rewrite project_triangle_unfold. unfold passes_near.
  fold d1 d2 d3. split.
  - intros H. apply near_rejected_true_iff in H. now rewrite H.
  - intros H. apply near_rejected_false_iff in H. rewrite H. cbn [negb].
    repeat split. intros ->. discriminate.
Qed.

End Projection.

(** ** Projection in exact arithmetic and on doubles *)

Section ProjectionFacts.
Local Open Scope Q_scope.

(** The epsilon is positive, so a clamped depth is never zero. *)
Lemma clamped_depth_lower_bound (vw : @View Q) (v : Vector3.t Q) :
  1 # 10 <= clamped_depth vw v /\ depth vw v <= clamped_depth vw v.
Proof.
  unfold clamped_depth.
  destruct (py_max_Q (depth vw v) depth_epsilon) as [H1 H2].
  split; [|exact H1].
  eapply Qle_trans; [|exact H2]. vm_compute. discriminate.
Qed.

(** C1, as the code has it.  A triangle that passes the near-plane test
    and the loose screen-bounds test is returned as exactly three screen
    points, each the perspective divide of a vertex by its depth clamped
    to at least the epsilon 0.1 (so no division is by zero), with the
    triangle's colour and with a depth that is the SUM of the three
    clamped depths times the literal 0.33333. *)
Theorem projection_of_surviving_triangle (vw : @View Q) (tri : Triangle.t Q) :
  passes_near vw tri = true ->
  passes_bounds vw tri = true ->
  let c1 := clamped_depth vw (Triangle.v1 tri) in
  let c2 := clamped_depth vw (Triangle.v2 tri) in
  let c3 := clamped_depth vw (Triangle.v3 tri) in
  project vw tri =
    Some ((c1 + c2 + c3) * third,
          [ screen_point vw (Triangle.v1 tri); screen_point vw (Triangle.v2 tri);
            screen_point vw (Triangle.v3 tri) ],
          Triangle.color tri)
  /\ (c1 + c2 + c3) * third == (33333 # 100000) * (c1 + c2 + c3)
  /\ 1 # 10 <= c1 /\ 1 # 10 <= c2 /\ 1 # 10 <= c3.
Proof.
  intros Hn Hb c1 c2 c3. rewrite project_triangle_unfold, Hn, Hb.
  split; [reflexivity|]. split.
  - assert (E : @third Q exactQ == 33333 # 100000) by reflexivity.
    rewrite E. ring.
  - repeat split; apply clamped_depth_lower_bound.
Qed.

End ProjectionFacts.

Section ProjectionExamples.

(** The depth returned is not the mean.  The triangle ten units ahead of
    the camera passes both tests, its three clamped depths are 10, 10 and 10,
    their mean is 10, and the depth returned is 30 * 0.33333 = 9.9999, in
    exact arithmetic as on doubles.  And on doubles the returned points
    need not be finite: a vertex at x = 1e308 overflows in [rx * fov]. *)
Lemma projected_depth_is_not_the_mean :
  (let vw := @axis_view Q _ in
   let c v := clamped_depth vw v in
   passes_near vw tri_ahead = true /\ passes_bounds vw tri_ahead = true
   /\ exists d pts col,
        project vw tri_ahead = Some (d, pts, col)
        /\ mean3 (c (vec 0 0 10)) (c (vec 10 0 10)) (c (vec 0 10 10)) == 10
        /\ d == 99999 # 10000
        /\ ~ d == mean3 (c (vec 0 0 10)) (c (vec 10 0 10)) (c (vec 0 10 10)))%Q
  /\ (let vw := @axis_view float _ in
      let c v := clamped_depth vw v in
      passes_near vw tri_ahead = true /\ passes_bounds vw tri_ahead = true
      /\ exists d pts col,
           project vw tri_ahead = Some (d, pts, col)
           /\ mean3 (c (vec 0 0 10)) (c (vec 10 0 10)) (c (vec 0 10 10)) = 10%float
           /\ PrimFloat.eqb d 10%float = false)
  /\ (let vw := @axis_view float _ in
      passes_near vw tri_huge = true /\ passes_bounds vw tri_huge = true
      /\ exists d sy1 p2 p3 col,
           project vw tri_huge = Some (d, [(infinity, sy1); p2; p3], col)
           /\ is_finite infinity = false).
Proof.
  split; [|split].
  - cbv zeta. split; [reflexivity|]. split; [reflexivity|].
    eexists _, _, _. split; [vm_compute; reflexivity|].
    split; [reflexivity|]. split; [reflexivity|]. discriminate.
  - cbv zeta. split; [reflexivity|]. split; [reflexivity|].
    eexists _, _, _. split; [vm_compute; reflexivity|].
    split; reflexivity.
  - cbv zeta. split; [reflexivity|]. split; [reflexivity|].
    eexists _, _, _, _, _. split; [vm_compute; reflexivity|]. reflexivity.
Qed.

(** The theorem at the triangle ahead of the camera: the depth returned
    is 9.9999 and the three points are (200,150), (500,150), (200,-150). *)
Lemma projection_of_tri_ahead :
  (project (@axis_view Q _) tri_ahead =
     Some ((10 + 10 + 10) * third,
           [ (0 * 300 / 10 + 200, - (0 * 300) / 10 + 150);
             (10 * 300 / 10 + 200, - (0 * 300) / 10 + 150);
             (0 * 300 / 10 + 200, - (10 * 300) / 10 + 150) ], RED))%Q.
Proof.
  destruct (projection_of_surviving_triangle (@axis_view Q _) tri_ahead)
    as [H _]; [reflexivity | reflexivity |].
  exact H.
Defined.

End ProjectionExamples.

(* ================================================================== *)
(** ** The character controller, for every scalar instance *)

Section PlayerFacts.
Context {F : Type} {SF : Scalar F} {LM : Libm F}.
Local Open Scope scalar_scope.

Lemma steer_keeps_vertical (keys : Keys) (p : Player) :
  pos (steer keys p) = pos p
  /\ Vector3.y (vel (steer keys p)) = Vector3.y (vel p)
  /\ grounded (steer keys p) = grounded p.
Proof.
  unfold steer. destruct (negb (forward_of keys =? 0)%Z); cbn; auto.
Qed.

Lemma integrate_height (keys : Keys) (p : Player) :
  Vector3.y (pos (integrate (jump keys (steer keys p)))) = integrated_height keys p
  /\ Vector3.y (vel (integrate (jump keys (steer keys p)))) = launch_velocity keys p.
Proof.
  destruct (steer_keeps_vertical keys p) as (Hp & Hv & Hg).
  unfold integrated_height, launch_velocity, integrate, jump.
  rewrite Hg. destruct (K_SPACE keys && grounded p); cbn; rewrite ?Hp, ?Hv; auto.
Qed.

(** The last statement of [Player.update]: a height below the floor is
    replaced by the floor, with the vertical velocity zeroed and the
    player grounded; any other height is left alone. *)
Lemma land_cases (p : Player) :
  ((Vector3.y (pos p) <? of_Z 0) = true ->
     Vector3.y (pos (land p)) = of_Z 0 /\ Vector3.y (vel (land p)) = of_Z 0
     /\ grounded (land p) = true)
  /\ ((Vector3.y (pos p) <? of_Z 0) = false -> land p = p).
Proof.
  unfold land. destruct (Vector3.y (pos p) <? of_Z 0); split; intros H;
    try discriminate; cbn; auto.
Qed.

(** On any instance whose zero is not below itself, the height after
    [Player.update] is not below the floor. *)
Lemma update_not_below_floor (keys : Keys) (p : Player) :
  (of_Z 0 <? of_Z 0) = false ->
  (Vector3.y (pos (Player_update keys p)) <? of_Z 0) = false.
Proof.
  intros H0. unfold Player_update.
  destruct (land_cases (integrate (jump keys (steer keys p)))) as [Ht Hf].
  destruct (Vector3.y (pos (integrate (jump keys (steer keys p)))) <? of_Z 0) eqn:E.
  - destruct (Ht eq_refl) as (-> & _). exact H0.
  - rewrite (Hf eq_refl). exact E.
Qed.

Lemma walk_cycle_after_update (keys : Keys) (p : Player) :
  walk_cycle (Player_update keys p) = walk_cycle (steer keys p).
Proof.
  unfold Player_update, land, integrate, jump.
  repeat match goal with |- context [if ?b then _ else _] => destruct b end;
    reflexivity.
Qed.

Lemma horizontal_velocity_after_update (keys : Keys) (p : Player) :
  Vector3.x (vel (Player_update keys p)) = Vector3.x (vel (steer keys p))
  /\ Vector3.z (vel (Player_update keys p)) = Vector3.z (vel (steer keys p)).
Proof.
  unfold Player_update, land, integrate, jump.
  repeat match goal with |- context [if ?b then _ else _] => destruct b end;
    split; reflexivity.
Qed.

End PlayerFacts.

(** On doubles the height after a tick is never below zero in the sense of
    the program's own test [pos.y < 0], from every state on which the tick
    runs to its end (the heading not an infinity, see [Libm]). *)
Lemma binary64_update_not_below_floor (LM : Libm float) (keys : Keys) (p : @Player float) :
  PrimFloat.ltb (Vector3.y (pos (Player_update keys p))) 0%float = false.
Proof.
  apply (@update_not_below_floor float binary64 LM keys p). reflexivity.
Qed.

(* ================================================================== *)
(** ** The character controller in exact arithmetic *)

Section PlayerLaws.
Context {LM : Libm Q}.
Local Open Scope Q_scope.

Lemma constants_Q :
  @GRAVITY Q _ == 12 # 10 /\ @JUMP_FORCE Q _ == 18 /\ @FRICTION Q _ == 82 # 100
  /\ @MOVE_SPEED Q _ == 8 # 10 /\ @RUN_SPEED Q _ == 14 # 10
  /\ @CAM_SMOOTH Q _ == 8 # 100.
Proof. repeat split. Qed.

(** A tick whose integrated height is below the floor ends on the floor,
    at rest vertically and grounded. *)
Lemma landing_tick (keys : Keys) (p : @Player Q) :
  integrated_height keys p < 0 ->
  Vector3.y (pos (Player_update keys p)) = 0
  /\ Vector3.y (vel (Player_update keys p)) = 0
  /\ grounded (Player_update keys p) = true.
Proof.
  destruct (integrate_height keys p) as [Hy _].
  destruct (land_cases (integrate (jump keys (steer keys p)))) as [Ht _].
  rewrite Hy in Ht. intros H. apply Qltb_lt in H. exact (Ht H).
Qed.

(** A tick whose integrated height is not below the floor ends in the
    integrated state. *)
Lemma flying_tick (keys : Keys) (p : @Player Q) :
  0 <= integrated_height keys p ->
  Player_update keys p = integrate (jump keys (steer keys p)).
Proof.
  destruct (integrate_height keys p) as [Hy _].
  destruct (land_cases (integrate (jump keys (steer keys p)))) as [_ Hf].
  rewrite Hy in Hf. intros H. apply Qltb_ge in H. exact (Hf H).
Qed.

(** C10.  Whatever the keys and the state, a tick ends with the height at
    or above the floor.  When the integration of the velocity carries the
    height below 0, the tick ends with the height exactly 0, the vertical
    velocity exactly 0 and the player grounded; otherwise the integrated
    state is the result. *)
Theorem floor_invariant (keys : Keys) (p : @Player Q) :
  0 <= Vector3.y (pos (Player_update keys p))
  /\ (Vector3.y (pos p) + launch_velocity keys p < 0 ->
      Vector3.y (pos (Player_update keys p)) = 0
      /\ Vector3.y (vel (Player_update keys p)) = 0
      /\ grounded (Player_update keys p) = true)
  /\ (0 <= Vector3.y (pos p) + launch_velocity keys p ->
      Player_update keys p = integrate (jump keys (steer keys p))).
Proof.
  split; [|split].
  - apply Qltb_ge. exact (@update_not_below_floor Q exactQ LM keys p eq_refl).
  - apply landing_tick.
  - apply flying_tick.
Qed.

(** C5.  From a grounded state at or above the floor, a tick with the
    jump key down sets the vertical velocity to the jump impulse and
    clears [grounded] before gravity is applied, so the tick ends with
    the vertical velocity [JUMP_FORCE - GRAVITY], the height raised by
    that much and [grounded] false.  And on every tick, from every state,
    whose integrated height is below the floor, the tick ends with the
    height 0, the vertical velocity 0 and [grounded] true. *)
Theorem jump_and_landing (keys : Keys) (p : @Player Q) :
  grounded p = true ->
  K_SPACE keys = true ->
  0 <= Vector3.y (pos p) ->
  (Vector3.y (vel (jump keys (steer keys p))) = JUMP_FORCE
   /\ grounded (jump keys (steer keys p)) = false)
  /\ Vector3.y (vel (Player_update keys p)) = JUMP_FORCE - GRAVITY
  /\ Vector3.y (vel (Player_update keys p)) == 168 # 10
  /\ Vector3.y (pos (Player_update keys p)) = Vector3.y (pos p) + (JUMP_FORCE - GRAVITY)
  /\ grounded (Player_update keys p) = false
  /\ (forall (keys' : Keys) (q : @Player Q),
        integrated_height keys' q < 0 ->
        Vector3.y (pos (Player_update keys' q)) = 0
        /\ Vector3.y (vel (Player_update keys' q)) = 0
        /\ grounded (Player_update keys' q) = true).
Proof.
  intros Hg Hk Hy.
  destruct (steer_keeps_vertical keys p) as (Hp & Hv & Hg').
  assert (Hj : jump keys (steer keys p) =
               {| pos := pos p;
                  vel := Vector3.new (Vector3.x (vel (steer keys p))) JUMP_FORCE
                                     (Vector3.z (vel (steer keys p)));
                  yaw := yaw (steer keys p); grounded := false;
                  walk_cycle := walk_cycle (steer keys p) |}).
  { unfold jump. rewrite Hg', Hg, Hk, Hp. reflexivity. }
  assert (Hh : 0 <= integrated_height keys p).
  { unfold integrated_height, launch_velocity. rewrite Hg, Hk. cbn [andb].
    destruct constants_Q as (Eg & Ej & _).
    change (0 <= Vector3.y (pos p) + (JUMP_FORCE - GRAVITY)).
    rewrite Eg, Ej. lra. }
  rewrite (flying_tick Hh), Hj. cbn.
  do 5 (split; [try split; reflexivity|]).
  intros keys' q. apply landing_tick.
Qed.

Lemma speed_of_is_run (keys : Keys) :
  (@speed_of Q _ keys =? RUN_SPEED)%F = (K_LSHIFT keys || K_RSHIFT keys)%bool.
Proof.
  unfold speed_of. destruct (K_LSHIFT keys || K_RSHIFT keys)%bool; reflexivity.
Qed.

Lemma walk_step_Q (keys : Keys) :
  @walk_step Q _ keys ==
  if (K_LSHIFT keys || K_RSHIFT keys)%bool then 45 # 100 else 3 # 10.
Proof.
  unfold walk_step. rewrite speed_of_is_run.
  destruct (K_LSHIFT keys || K_RSHIFT keys)%bool; reflexivity.
Qed.

(** C9.  The walk cycle advances only on a tick that has forward (or
    backward) input and starts grounded, and then by a step fixed by the
    speed tier: 0.3 at the walk speed, 0.3 * 1.5 at the run speed.  With
    forward input in the air it keeps its value, and on a tick with no
    forward input it is set to exactly 0, whatever it was. *)
Theorem walk_cycle_law (keys : Keys) (p : @Player Q) :
  (forward_of keys = 0%Z -> walk_cycle (Player_update keys p) = 0)
  /\ (forward_of keys <> 0%Z -> grounded p = true ->
      walk_cycle (Player_update keys p) = walk_cycle p + walk_step keys)
  /\ (forward_of keys <> 0%Z -> grounded p = false ->
      walk_cycle (Player_update keys p) = walk_cycle p)
  /\ walk_step keys == (if (K_LSHIFT keys || K_RSHIFT keys)%bool then 45 # 100 else 3 # 10)
  /\ (speed_of keys == if (K_LSHIFT keys || K_RSHIFT keys)%bool then 14 # 10 else 8 # 10).
Proof.
  rewrite walk_cycle_after_update. unfold steer.
  split; [|split; [|split; [|split]]].
  - intros ->. reflexivity.
  - intros Hf Hg. apply Z.eqb_neq in Hf. rewrite Hf, Hg. reflexivity.
  - intros Hf Hg. apply Z.eqb_neq in Hf. rewrite Hf, Hg. reflexivity.
  - apply walk_step_Q.
  - unfold speed_of. destruct (K_LSHIFT keys || K_RSHIFT keys)%bool; reflexivity.
Qed.

(** *** Friction *)

(** One tick multiplies each horizontal component by [FRICTION], after
    the impulse of the keys, if any, has been added. *)
Lemma friction_every_tick (keys : Keys) (p : @Player Q) :
  let imp := if negb (forward_of keys =? 0)%Z
             then speed_of keys * inject_Z (forward_of keys) else 0 in
  let yaw' := yaw p + inject_Z (turning_of keys) * TURN_SPEED in
  Vector3.x (vel (Player_update keys p)) == (Vector3.x (vel p) + fsin yaw' * imp) * FRICTION
  /\ Vector3.z (vel (Player_update keys p)) == (Vector3.z (vel p) + fcos yaw' * imp) * FRICTION.
Proof.
  destruct (horizontal_velocity_after_update keys p) as [-> ->].
  unfold steer. destruct (negb (forward_of keys =? 0)%Z); cbn; split; ring.
Qed.

Lemma friction_idle_tick (keys : Keys) (p : @Player Q) :
  idle keys ->
  Vector3.x (vel (Player_update keys p)) = Vector3.x (vel p) * FRICTION
  /\ Vector3.z (vel (Player_update keys p)) = Vector3.z (vel p) * FRICTION.
Proof.
  intros H. destruct (horizontal_velocity_after_update keys p) as [-> ->].
  unfold steer. rewrite H. split; reflexivity.
Qed.

Lemma Qpower_succ_nat (q : Q) (n : nat) :
  q ^ Z.of_nat (S n) == q ^ Z.of_nat n * q.
Proof.
  rewrite Nat2Z.inj_succ. unfold Z.succ.
  destruct (Qeq_dec q 0) as [E|E].
  - rewrite E. rewrite (Qpower_0 (Z.of_nat n + 1)) by lia. ring.
  - rewrite Qpower_plus by exact E. reflexivity.
Qed.

Lemma friction_idle_run (inputs : list Keys) (p : @Player Q) :
  Forall idle inputs ->
  Vector3.x (vel (Player_run inputs p))
    == Vector3.x (vel p) * FRICTION ^ Z.of_nat (length inputs)
  /\ Vector3.z (vel (Player_run inputs p))
    == Vector3.z (vel p) * FRICTION ^ Z.of_nat (length inputs).
Proof.
  intros H. revert p. induction H as [|keys inputs Hk _ IH]; intros p.
  - cbn. split; ring.
  - cbn [Player_run fold_left length]. fold (Player_run inputs (Player_update keys p)).
    destruct (IH (Player_update keys p)) as [Ex Ez].
    destruct (friction_idle_tick p Hk) as [Fx Fz].
    rewrite Ex, Ez, Fx, Fz, Qpower_succ_nat. split; ring.
Qed.

(** Bernoulli's inequality for the friction ratio: with 1/0.82 = 1 + 9/41,
    [0.82^n * (1 + n * 9/41) <= 1]. *)
Lemma friction_power_bounds (n : nat) :
  let a := (82 # 100) ^ Z.of_nat n in
  0 <= a /\ a <= 1 /\ a * (1 + inject_Z (Z.of_nat n) * (9 # 41)) <= 1.
Proof.
  induction n as [|n IH].
  - cbn. repeat split; discriminate.
  - cbv zeta in *. rewrite Qpower_succ_nat.
    set (a := (82 # 100) ^ Z.of_nat n) in *.
    assert (Hk : inject_Z (Z.of_nat (S n)) == inject_Z (Z.of_nat n) + 1).
    { rewrite Nat2Z.inj_succ. unfold Z.succ. rewrite inject_Z_plus. reflexivity. }
    rewrite Hk.
    assert (H0 : 0 <= inject_Z (Z.of_nat n)).
    { change 0 with (inject_Z 0). rewrite <- Zle_Qle. lia. }
    set (k := inject_Z (Z.of_nat n)) in *.
    destruct IH as (Ha0 & Ha1 & Hb).
    repeat split; nra.
Qed.

Lemma Qmult_le_l_weak (a b c : Q) : 0 <= a -> b <= c -> a * b <= a * c.
Proof.
  intros Ha Hbc. rewrite (Qmult_comm a b), (Qmult_comm a c).
  apply Qmult_le_compat_r; assumption.
Qed.

(** A geometric sequence of ratio 0.82 falls below every positive bound. *)
Lemma friction_decay (a eps : Q) :
  0 <= a -> 0 < eps ->
  exists N : nat, forall n : nat, (N <= n)%nat -> a * (82 # 100) ^ Z.of_nat n < eps.
Proof.
  intros Ha He.
  exists (Z.to_nat (Qceiling (a / (eps * (9 # 41))))).
  intros n Hn.
  destruct (friction_power_bounds n) as (Hp0 & Hp1 & Hb). cbv zeta in *.
  set (pw := (82 # 100) ^ Z.of_nat n) in *.
  assert (Hk : a / (eps * (9 # 41)) <= inject_Z (Z.of_nat n)).
  { eapply Qle_trans; [apply Qle_ceiling|]. rewrite <- Zle_Qle. lia. }
  set (k := inject_Z (Z.of_nat n)) in *.
  assert (Hk' : a <= k * (eps * (9 # 41))).
  { assert (Hpos : 0 < eps * (9 # 41)) by lra.
    assert (E : a == a / (eps * (9 # 41)) * (eps * (9 # 41))) by (field; lra).
    rewrite E at 1. apply Qmult_le_compat_r; [exact Hk | lra]. }
  assert (Hk0 : 0 <= k).
  { unfold k. change 0 with (inject_Z 0). rewrite <- Zle_Qle. lia. }
  destruct (Qlt_le_dec (a * pw) eps) as [H|H]; [exact H|].
  exfalso.
  assert (P1 : a * (pw * (1 + k * (9 # 41))) <= a * 1).
  { apply Qmult_le_l_weak; [exact Ha | exact Hb]. }
  assert (P2 : eps * (1 + k * (9 # 41)) <= a * pw * (1 + k * (9 # 41))).
  { apply Qmult_le_compat_r; [exact H | nra]. }
  nra.
Qed.

(** C6.  Friction multiplies both horizontal velocity components by 0.82
    on every tick, with or without input.  Over [n] ticks without forward
    or backward input the horizontal velocity is the initial one times
    [0.82^n], so the squared speed is the initial squared speed times
    [(0.82^n)^2] and, [s] being the initial speed, [s * 0.82^n] is the
    speed then; and for every [eps > 0] there is an [N] such that after
    any [N] or more such ticks each component is below [eps] in absolute
    value and the speed is below [eps] (its square below [eps^2]). *)
Theorem friction_law (p : @Player Q) :
  (0 < FRICTION /\ FRICTION < 1)
  /\ (forall keys : Keys,
       let imp := if negb (forward_of keys =? 0)%Z
                  then speed_of keys * inject_Z (forward_of keys) else 0 in
       let yaw' := yaw p + inject_Z (turning_of keys) * TURN_SPEED in
       Vector3.x (vel (Player_update keys p))
         == (Vector3.x (vel p) + fsin yaw' * imp) * FRICTION
       /\ Vector3.z (vel (Player_update keys p))
         == (Vector3.z (vel p) + fcos yaw' * imp) * FRICTION)
  /\ (forall inputs : list Keys,
       Forall idle inputs ->
       let n := Z.of_nat (length inputs) in
       Vector3.x (vel (Player_run inputs p)) == Vector3.x (vel p) * FRICTION ^ n
       /\ Vector3.z (vel (Player_run inputs p)) == Vector3.z (vel p) * FRICTION ^ n
       /\ speed2 (Player_run inputs p) == speed2 p * (FRICTION ^ n * FRICTION ^ n)
       /\ (forall s : Q,
            0 <= s -> s * s == speed2 p ->
            0 <= s * FRICTION ^ n
            /\ (s * FRICTION ^ n) * (s * FRICTION ^ n) == speed2 (Player_run inputs p)))
  /\ (forall eps : Q,
       0 < eps ->
       exists N : nat,
       forall inputs : list Keys,
         Forall idle inputs -> (N <= length inputs)%nat ->
         Qabs (Vector3.x (vel (Player_run inputs p))) < eps
         /\ Qabs (Vector3.z (vel (Player_run inputs p))) < eps
         /\ speed2 (Player_run inputs p) < eps * eps).
Proof.
  split; [split; reflexivity|].
  split; [intros keys; apply friction_every_tick|].
  assert (Hrun : forall inputs : list Keys,
             Forall idle inputs ->
             Vector3.x (vel (Player_run inputs p))
               == Vector3.x (vel p) * (82 # 100) ^ Z.of_nat (length inputs)
             /\ Vector3.z (vel (Player_run inputs p))
               == Vector3.z (vel p) * (82 # 100) ^ Z.of_nat (length inputs)).
  { intros inputs H. exact (friction_idle_run p H). }
  split.
  - intros inputs H n. destruct (Hrun inputs H) as [Ex Ez].
    change (@FRICTION Q exactQ) with (82 # 100). subst n. split; [exact Ex|]. split; [exact Ez|].
    destruct (friction_power_bounds (length inputs)) as (Hp0 & _). cbv zeta in Hp0.
    assert (Es : speed2 (Player_run inputs p)
                 == speed2 p * ((82 # 100) ^ Z.of_nat (length inputs)
                                * (82 # 100) ^ Z.of_nat (length inputs))).
    { unfold speed2. cbn [fadd fmul exactQ]. rewrite Ex, Ez.
      generalize ((82 # 100) ^ Z.of_nat (length inputs)). intros pw. ring. }
    split; [exact Es|].
    intros s Hs0 Hs. rewrite Es, <- Hs.
    revert Hp0. generalize ((82 # 100) ^ Z.of_nat (length inputs)). intros pw Hp0.
    split; [apply Qmult_le_0_compat; assumption | ring].
  - intros eps He.
    destruct (friction_decay (a := Qabs (Vector3.x (vel p)) + Qabs (Vector3.z (vel p)))
                             (eps := eps)) as [N HN].
    { pose proof (Qabs_nonneg (Vector3.x (vel p))).
      pose proof (Qabs_nonneg (Vector3.z (vel p))). lra. }
    { exact He. }
    exists N. intros inputs H Hlen.
    destruct (Hrun inputs H) as [Ex Ez]. specialize (HN _ Hlen).
    destruct (friction_power_bounds (length inputs)) as (Hp0 & Hp1 & _).
    cbv zeta in *. set (pw := (82 # 100) ^ Z.of_nat (length inputs)) in *.
    pose proof (Qabs_nonneg (Vector3.x (vel p))) as Hax.
    pose proof (Qabs_nonneg (Vector3.z (vel p))) as Haz.
    assert (Hx : Qabs (Vector3.x (vel (Player_run inputs p)))
                 == Qabs (Vector3.x (vel p)) * pw).
    { rewrite Ex, Qabs_Qmult. rewrite (Qabs_pos pw) by exact Hp0. reflexivity. }
    assert (Hz : Qabs (Vector3.z (vel (Player_run inputs p)))
                 == Qabs (Vector3.z (vel p)) * pw).
    { rewrite Ez, Qabs_Qmult. rewrite (Qabs_pos pw) by exact Hp0. reflexivity. }
    assert (Hsq : forall q : Q, q * q == Qabs q * Qabs q).
    { intros q. rewrite <- Qabs_Qmult. symmetry. apply Qabs_pos. nra. }
    split; [rewrite Hx; nra|]. split; [rewrite Hz; nra|].
    unfold speed2. cbn [fadd fmul exactQ].
    rewrite (Hsq (Vector3.x (vel (Player_run inputs p)))),
            (Hsq (Vector3.z (vel (Player_run inputs p)))), Hx, Hz.
    set (ax := Qabs (Vector3.x (vel p))) in *.
    set (az := Qabs (Vector3.z (vel p))) in *.
    assert (H1 : 0 <= ax * pw) by nra.
    assert (H2 : 0 <= az * pw) by nra.
    assert (H3 : ax * pw + az * pw < eps) by lra.
    nra.
Qed.

End PlayerLaws.

(* ================================================================== *)
(** ** The chase camera *)

Section CameraLaws.
Context {LM : Libm Q}.
Local Open Scope Q_scope.

Lemma smooth_gap (c t : Q) : t - smooth c t == (t - c) * (1 - CAM_SMOOTH).
Proof.
  unfold smooth. cbn [fadd fsub fmul exactQ]. ring.
Qed.

Lemma smooth_distance (c t : Q) :
  Qabs (t - smooth c t) == Qabs (t - c) * (1 - CAM_SMOOTH).
Proof.
  rewrite smooth_gap, Qabs_Qmult.
  rewrite (Qabs_pos (1 - CAM_SMOOTH)); [reflexivity | discriminate].
Qed.

(** C7.  In a tick the camera's target is computed from the player as
    [Player.update] has just left it.  On each axis separately the camera
    then moves so that its signed offset from that target, and so its
    distance [D] from it, is multiplied by [1 - CAM_SMOOTH]: it ends at
    [D * (1 - k)].  The yaw is then [atan2(dx, dz)] of the vector from
    the moved camera to the player: it is computed afresh, not smoothed,
    and the yaw the camera had does not enter it. *)
Theorem camera_smoothing (keys : Keys) (g : @Game Q) :
  let p' := Player_update keys (player g) in
  let t := camera_target (with_player g p') in
  let c := cam_pos g in
  let g' := tick keys g in
  let c' := cam_pos g' in
  player g' = p'
  /\ (Vector3.x t - Vector3.x c' == (Vector3.x t - Vector3.x c) * (1 - CAM_SMOOTH)
      /\ Vector3.y t - Vector3.y c' == (Vector3.y t - Vector3.y c) * (1 - CAM_SMOOTH)
      /\ Vector3.z t - Vector3.z c' == (Vector3.z t - Vector3.z c) * (1 - CAM_SMOOTH))
  /\ (Qabs (Vector3.x t - Vector3.x c') == Qabs (Vector3.x t - Vector3.x c) * (1 - CAM_SMOOTH)
      /\ Qabs (Vector3.y t - Vector3.y c') == Qabs (Vector3.y t - Vector3.y c) * (1 - CAM_SMOOTH)
      /\ Qabs (Vector3.z t - Vector3.z c') == Qabs (Vector3.z t - Vector3.z c) * (1 - CAM_SMOOTH))
  /\ cam_yaw g' = fatan2 (Vector3.x (pos p') - Vector3.x c') (Vector3.z (pos p') - Vector3.z c')
  /\ (forall a : Q, cam_yaw (tick keys (with_cam_yaw g a)) = cam_yaw g').
Proof.
  cbv zeta. unfold tick, update_camera. cbn [player cam_pos cam_yaw with_player Vector3.x Vector3.y Vector3.z].
  split; [reflexivity|].
  split; [repeat split; apply smooth_gap|].
  split; [repeat split; apply smooth_distance|].
  split; [reflexivity|].
  intros a. reflexivity.
Qed.

End CameraLaws.

(* ================================================================== *)
(** ** The level *)

Section LevelFacts.
Context {F : Type} {SF : Scalar F} {LM : Libm F}.
Local Open Scope scalar_scope.

(** [Level.build] raises no exception and appends 1559 triangles. *)
Lemma Level_init_size : option_map (@length _) Level_init = Some 1559%nat.
Proof. vm_compute. reflexivity. Qed.

Lemma appends_id : appends (fun s : list (Triangle.t F) => s).
Proof. intros s. now rewrite app_nil_r. Qed.

Lemma appends_comp (f h : list (Triangle.t F) -> list (Triangle.t F)) :
  appends f -> appends h -> appends (fun s => f (h s)).
Proof.
  intros Hf Hh s. rewrite (Hf (h s)), (Hh s), (Hf (h [])). now rewrite app_assoc.
Qed.

Lemma appends_opt_comp (f : list (Triangle.t F) -> option (list (Triangle.t F)))
    (h : list (Triangle.t F) -> list (Triangle.t F)) :
  appends_opt f -> appends h -> appends_opt (fun s => f (h s)).
Proof.
  intros Hf Hh s. rewrite (Hf (h s)), (Hh s), (Hf (h [])).
  destruct (f []) as [l|]; cbn; [|reflexivity]. now rewrite app_assoc.
Qed.

Lemma appends_opt_some (h : list (Triangle.t F) -> list (Triangle.t F)) :
  appends h -> appends_opt (fun s => Some (h s)).
Proof. intros Hh s. cbn. now rewrite (Hh s). Qed.

Lemma appends_opt_bind (f k : list (Triangle.t F) -> option (list (Triangle.t F))) :
  appends_opt f -> appends_opt k -> appends_opt (fun s => bind (f s) k).
Proof.
  intros Hf Hk s. rewrite (Hf s). destruct (f []) as [l|]; cbn; [|reflexivity].
  rewrite (Hk (s ++ l)), (Hk l). destruct (k []) as [m|]; cbn; [|reflexivity].
  now rewrite app_assoc.
Qed.

Lemma appends_for_each {A : Type} (xs : list A)
    (body : A -> list (Triangle.t F) -> list (Triangle.t F)) :
  (forall a, appends (body a)) -> appends (for_each xs body).
Proof.
  intros Hb. unfold for_each. induction xs as [|a xs IH]; intros s; cbn.
  - now rewrite app_nil_r.
  - rewrite (IH (body a s)), (IH (body a [])), (Hb a s). now rewrite app_assoc.
Qed.

Lemma appends_for_each_opt {A : Type} (xs : list A)
    (body : A -> list (Triangle.t F) -> option (list (Triangle.t F))) :
  (forall a, appends_opt (body a)) -> appends_opt (for_each_opt xs body).
Proof.
  intros Hb. induction xs as [|a xs IH]; intros s; cbn.
  - now rewrite app_nil_r.
  - exact (appends_opt_bind (Hb a) IH s).
Qed.

Lemma appends_add_box (cx by_ cz w h d : F) (c1 c2 c3 : Color) :
  appends (fun s => add_box s cx by_ cz w h d c1 c2 c3).
Proof. intros s. reflexivity. Qed.

Lemma appends_box (cx by_ cz w h d : Z) (c1 c2 c3 : Color) :
  appends (box cx by_ cz w h d c1 c2 c3).
Proof. intros s. reflexivity. Qed.

Lemma appends_add_flag (cx by_ cz : F) : appends (fun s => add_flag s cx by_ cz).
Proof.
  intros s. unfold add_flag. rewrite (appends_add_box _ _ _ _ _ _ _ _ _ s).
  now rewrite <- app_assoc.
Qed.

Lemma appends_add_battlements (cx by_ cz : F) (len : Z) (is_z : bool) (col : Color)
    (count : Z) :
  appends (fun s => add_battlements s cx by_ cz len is_z col count).
Proof.
  unfold add_battlements. apply appends_for_each. intros i.
  destruct is_z; apply appends_add_box.
Qed.

Lemma appends_add_cylinder (cx by_ cz radius height : F) (segments : Z) (c1 c2 : Color) :
  appends_opt (fun s => add_cylinder s cx by_ cz radius height segments c1 c2).
Proof.
  unfold add_cylinder. destruct (angle_step segments) as [step|]; cbn [bind].
  - apply appends_opt_some. apply appends_for_each. intros i s.
    destruct (cache_at _ i), (cache_at _ (i + 1)%Z). reflexivity.
  - intros s. reflexivity.
Qed.

Lemma appends_add_cone (cx by_ cz radius height : F) (segments : Z) (c : Color) :
  appends_opt (fun s => add_cone s cx by_ cz radius height segments c).
Proof.
  unfold add_cone. destruct (angle_step segments) as [step|]; cbn [bind].
  - apply appends_opt_some. apply appends_for_each. intros i s.
    destruct (cache_at _ i), (cache_at _ (i + 1)%Z). reflexivity.
  - intros s. reflexivity.
Qed.

Lemma appends_add_peach_tower (cx by_ cz radius height roof_height : F) (c1 c2 : Color) :
  appends_opt (fun s => add_peach_tower s cx by_ cz radius height roof_height c1 c2).
Proof.
  unfold add_peach_tower. cbv zeta.
  apply appends_opt_bind; [apply appends_add_cylinder|].
  apply appends_opt_bind; [apply appends_add_cone|].
  apply appends_opt_some.
  apply (appends_comp (f := for_each _ _)); [|apply appends_add_flag].
  apply appends_for_each. intros i. apply appends_add_box.
Qed.

(** The same facts for a builder applied to what another builder
    returned, the shape the statements of [Level.build] have. *)
Lemma appends_after_box (h : list (Triangle.t F) -> list (Triangle.t F))
    (cx by_ cz w h' d : Z) (c1 c2 c3 : Color) :
  appends h -> appends (fun s => box cx by_ cz w h' d c1 c2 c3 (h s)).
Proof. apply (appends_comp (f := box _ _ _ _ _ _ _ _ _)), appends_box. Qed.

Lemma appends_after_add_flag (h : list (Triangle.t F) -> list (Triangle.t F))
    (cx by_ cz : F) :
  appends h -> appends (fun s => add_flag (h s) cx by_ cz).
Proof. apply (appends_comp (f := fun s => add_flag s _ _ _)), appends_add_flag. Qed.

Lemma appends_after_add_battlements (h : list (Triangle.t F) -> list (Triangle.t F))
    (cx by_ cz : F) (len : Z) (is_z : bool) (col : Color) (count : Z) :
  appends h -> appends (fun s => add_battlements (h s) cx by_ cz len is_z col count).
Proof.
  apply (appends_comp (f := fun s => add_battlements s _ _ _ _ _ _ _)),
    appends_add_battlements.
Qed.

Lemma appends_after_for_each {A : Type} (h : list (Triangle.t F) -> list (Triangle.t F))
    (xs : list A) (body : A -> list (Triangle.t F) -> list (Triangle.t F)) :
  (forall a, appends (body a)) -> appends h -> appends (fun s => for_each xs body (h s)).
Proof.
  intros Hb. apply (appends_comp (f := for_each xs body)), appends_for_each, Hb.
Qed.

Lemma appends_opt_after_add_cylinder (h : list (Triangle.t F) -> list (Triangle.t F))
    (cx by_ cz radius height : F) (segments : Z) (c1 c2 : Color) :
  appends h ->
  appends_opt (fun s => add_cylinder (h s) cx by_ cz radius height segments c1 c2).
Proof.
  apply (appends_opt_comp (f := fun s => add_cylinder s _ _ _ _ _ _ _ _)),
    appends_add_cylinder.
Qed.

Lemma appends_opt_after_add_cone (h : list (Triangle.t F) -> list (Triangle.t F))
    (cx by_ cz radius height : F) (segments : Z) (c : Color) :
  appends h ->
  appends_opt (fun s => add_cone (h s) cx by_ cz radius height segments c).
Proof.
  apply (appends_opt_comp (f := fun s => add_cone s _ _ _ _ _ _ _)), appends_add_cone.
Qed.

Lemma appends_opt_after_for_each_opt {A : Type}
    (h : list (Triangle.t F) -> list (Triangle.t F)) (xs : list A)
    (body : A -> list (Triangle.t F) -> option (list (Triangle.t F))) :
  (forall a, appends_opt (body a)) -> appends h ->
  appends_opt (fun s => for_each_opt xs body (h s)).
Proof.
  intros Hb. apply (appends_opt_comp (f := for_each_opt xs body)), appends_for_each_opt, Hb.
Qed.

(** One statement of [Level.build] peeled off the goal. *)
Ltac appends_step :=
  lazymatch goal with
  | |- appends (fun s => s) => apply appends_id
  | |- appends (fun s => box _ _ _ _ _ _ _ _ _ (@?h s)) => apply appends_after_box
  | |- appends (fun s => add_flag (@?h s) _ _ _) => apply appends_after_add_flag
  | |- appends (fun s => add_battlements (@?h s) _ _ _ _ _ _ _) =>
      apply appends_after_add_battlements
  | |- appends (fun s => for_each _ _ (@?h s)) =>
      apply appends_after_for_each; [intros ?|]
  | |- appends (let '(_, _) := _ in _) =>
      match goal with a : (_ * _)%type |- _ => destruct a; cbn beta iota end
  | |- appends (box _ _ _ _ _ _ _ _ _) => apply appends_box
  | |- appends (for_each _ _) => apply appends_for_each; intros ?
  | |- appends_opt (for_each_opt _ _) =>
      apply appends_for_each_opt; intros [? ?]; cbn beta iota
  | |- appends_opt (fun s => add_peach_tower (@?h s) _ _ _ _ _ _ _ _) =>
      apply appends_add_peach_tower
  | |- appends_opt (fun s => add_cylinder (@?h s) _ _ _ _ _ _ _ _) =>
      apply appends_opt_after_add_cylinder
  | |- appends_opt (fun s => add_cone (@?h s) _ _ _ _ _ _ _) =>
      apply appends_opt_after_add_cone
  | |- appends_opt (fun s => for_each_opt _ _ (@?h s)) =>
      apply appends_opt_after_for_each_opt; [intros [? ?]; cbn beta iota|]
  | |- appends_opt (fun s => Some (@?h s)) => apply appends_opt_some
  | |- appends_opt (fun s => bind (@?f s) _) => apply appends_opt_bind
  end.

(** [Level.build] only appends to [self.triangles]. *)
Lemma appends_Level_build : appends_opt Level_build.
Proof.
  unfold Level_build. cbv zeta. repeat appends_step.
Qed.

(** C8.  Building the level is a function of nothing but the arithmetic.
    Every execution of [Level()] succeeds with one and the same list of
    1559 triangles; run on a list that already holds triangles, [build]
    leaves them in place and appends that same list; and any two
    executions yield the same number of triangles, in the same order,
    equal one by one in their vertices and colours. *)
Theorem level_build_deterministic :
  exists l : list (Triangle.t F),
    Level_init = Some l /\ length l = 1559%nat
    /\ (forall t : list (Triangle.t F), Level_build t = Some (t ++ l))
    /\ forall l1 l2 : list (Triangle.t F),
         Level_build [] = Some l1 -> Level_build [] = Some l2 ->
         length l1 = length l2
         /\ (forall i : nat, nth_error l1 i = nth_error l2 i)
         /\ l1 = l2.
Proof.
  pose proof Level_init_size as H.
  destruct Level_init as [l|] eqn:E; [|discriminate].
  unfold Level_init in E.
  exists l. split; [reflexivity|]. split; [now injection H|].
  split.
  - intros t. rewrite (appends_Level_build t), E. reflexivity.
  - intros l1 l2 H1 H2. assert (l1 = l2) as -> by congruence. auto.
Qed.

End LevelFacts.

(* ================================================================== *)
(** ** Depth sort *)

Section DepthSort.
Local Open Scope Q_scope.

Lemma insert_by_depth_perm (s : @ScreenTri Q) (l : list ScreenTri) :
  Permutation (s :: l) (insert_by_depth s l).
Proof.
  induction l as [|s' r IH]; cbn [insert_by_depth]; [reflexivity|].
  destruct (depth_of s <? depth_of s')%F; [|reflexivity].
  rewrite perm_swap. now constructor.
Qed.

Lemma insert_by_depth_hd (a s : @ScreenTri Q) (l : list ScreenTri) :
  far_first a s -> HdRel far_first a l -> HdRel far_first a (insert_by_depth s l).
Proof.
  intros Has Hal. destruct l as [|s' r]; cbn [insert_by_depth]; [now constructor|].
  destruct (depth_of s <? depth_of s')%F; constructor; [|exact Has].
  now inversion Hal.
Qed.

Lemma insert_by_depth_sorted (s : @ScreenTri Q) (l : list ScreenTri) :
  Sorted far_first l -> Sorted far_first (insert_by_depth s l).
Proof.
  induction 1 as [|s' r Hr IH Hhd]; cbn [insert_by_depth]; [repeat constructor|].
  cbn [fltb exactQ]. case_Qltb (depth_of s) (depth_of s').
  - constructor; [exact IH|]. apply insert_by_depth_hd; [|exact Hhd].
    unfold far_first. lra.
  - constructor; [now constructor|]. constructor. exact E.
Qed.

(** An entry that steps over another has a different depth, so the
    entries of one depth never change places. *)
Lemma insert_by_depth_filter (d : Q) (s : @ScreenTri Q) (l : list ScreenTri) :
  filter (has_depth d) (insert_by_depth s l) = filter (has_depth d) (s :: l).
Proof.
  induction l as [|s' r IH]; [reflexivity|].
  cbn [insert_by_depth fltb exactQ]. case_Qltb (depth_of s) (depth_of s'); [|reflexivity].
  cbn [filter] in *. rewrite IH.
  destruct (has_depth d s) eqn:Hs, (has_depth d s') eqn:Hs'; try reflexivity.
  exfalso. unfold has_depth in Hs, Hs'. cbn [feqb exactQ] in Hs, Hs'.
  apply Qeq_bool_iff in Hs, Hs'. lra.
Qed.

Lemma far_first_transitive : Transitive far_first.
Proof. intros a b c. unfold far_first. lra. Qed.

(** C3.  For every list of projected triples the depth sort returns a
    list whose depths never increase (farthest first), that is a
    permutation of the input, and in which, for each depth, the entries of
    that depth stand in the order they had in the input. *)
Theorem depth_sort_spec (l : list (@ScreenTri Q)) :
  StronglySorted far_first (depth_sort l)
  /\ Permutation l (depth_sort l)
  /\ forall d : Q, filter (has_depth d) (depth_sort l) = filter (has_depth d) l.
Proof.
  split; [|split].
  - apply Sorted_StronglySorted; [exact far_first_transitive|].
    induction l as [|s l IH]; cbn; [constructor|].
    now apply insert_by_depth_sorted.
  - induction l as [|s l IH]; cbn; [constructor|].
    rewrite <- insert_by_depth_perm. now constructor.
  - intros d. induction l as [|s l IH]; [reflexivity|].
    cbn [depth_sort fold_right]. fold (depth_sort l).
    rewrite insert_by_depth_filter. cbn [filter]. now rewrite IH.
Qed.

End DepthSort.

(* ================================================================== *)
(** ** Depth shading *)

Section Shading.
Local Open Scope Q_scope.

(** Truncation toward zero is monotone. *)
Lemma Qtrunc_le (a b : Q) : a <= b -> (Qtrunc a <= Qtrunc b)%Z.
Proof.
  unfold Qle, Qtrunc. intros H.
  rewrite <- (Z.quot_mul_cancel_r (Qnum a) (QDen a) (QDen b)) by discriminate.
  rewrite <- (Z.quot_mul_cancel_r (Qnum b) (QDen b) (QDen a)) by discriminate.
  rewrite (Z.mul_comm (QDen b) (QDen a)).
  apply Z.quot_le_mono; [|exact H]. reflexivity.
Qed.

Lemma Qtrunc_inject (n : Z) : Qtrunc (inject_Z n) = n.
Proof. unfold Qtrunc. cbn. apply Z.quot_1_r. Qed.

Lemma darkening_bounds (z : Q) : darkening z <= 65 # 100.
Proof.
  unfold darkening. destruct (py_min_Q (z / inject_Z 2200) (dec 65 2)) as [_ H].
  exact H.
Qed.

Lemma darkening_mono (z1 z2 : Q) : z1 <= z2 -> darkening z1 <= darkening z2.
Proof.
  intros H. unfold darkening, py_min. cbn [fltb fdiv of_Z exactQ].
  assert (Hd : z1 / inject_Z 2200 <= z2 / inject_Z 2200).
  { unfold Qdiv. apply Qmult_le_compat_r; [exact H | discriminate]. }
  assert (E : @dec Q exactQ 65 2 == 65 # 100) by reflexivity.
  case_Qltb (@dec Q exactQ 65 2) (z1 / inject_Z 2200);
    case_Qltb (@dec Q exactQ 65 2) (z2 / inject_Z 2200); lra.
Qed.

Lemma shade_of_bounds (z : Q) : 35 # 100 <= shade_of z.
Proof.
  unfold shade_of. cbn [fsub of_Z exactQ]. pose proof (darkening_bounds z).
  change (inject_Z 1) with 1. lra.
Qed.

Lemma shade_of_antitone (z1 z2 : Q) : z1 <= z2 -> shade_of z2 <= shade_of z1.
Proof.
  intros H. unfold shade_of. cbn [fsub exactQ]. pose proof (darkening_mono H). lra.
Qed.

Lemma shade_channel_Q (z : Q) (c : Z) :
  shade_channel z c = Some (Z.max 0 (Z.min 255 (Qtrunc (inject_Z c * shade_of z)))).
Proof. reflexivity. Qed.

Lemma shade_channel_mono (z1 z2 : Q) (c : Z) :
  z1 <= z2 ->
  exists a b : Z,
    shade_channel z1 c = Some a /\ shade_channel z2 c = Some b
    /\ (b <= a)%Z /\ channel_ok a /\ channel_ok b.
Proof.
  intros H. rewrite !shade_channel_Q. eexists _, _.
  split; [reflexivity|]. split; [reflexivity|].
  split; [|unfold channel_ok; lia].
  pose proof (shade_of_antitone H) as Hs.
  pose proof (shade_of_bounds z1) as H1. pose proof (shade_of_bounds z2) as H2.
  destruct (Z_lt_le_dec c 0) as [Hc|Hc].
  - (* a negative channel stays at 0 *)
    assert (Hq : inject_Z c <= 0).
    { change 0 with (inject_Z 0). rewrite <- Zle_Qle. lia. }
    assert (T1 : (Qtrunc (inject_Z c * shade_of z1) <= 0)%Z).
    { rewrite <- (Qtrunc_inject 0). apply Qtrunc_le. change (inject_Z 0) with 0. nra. }
    assert (T2 : (Qtrunc (inject_Z c * shade_of z2) <= 0)%Z).
    { rewrite <- (Qtrunc_inject 0). apply Qtrunc_le. change (inject_Z 0) with 0. nra. }
    lia.
  - assert (Hq : 0 <= inject_Z c).
    { change 0 with (inject_Z 0). rewrite <- Zle_Qle. exact Hc. }
    assert (T : (Qtrunc (inject_Z c * shade_of z2) <= Qtrunc (inject_Z c * shade_of z1))%Z).
    { apply Qtrunc_le. nra. }
    lia.
Qed.

(** C4.  For every colour and any two depths [z1 <= z2], each channel of
    the colour shaded at [z2] is at most the same channel shaded at [z1];
    the darkening never exceeds 0.65 (the brightness factor stays at or
    above 0.35); and every channel returned lies in 0..255. *)
Theorem shading_monotone (z1 z2 : Q) (col : Color) :
  z1 <= z2 ->
  exists near far : Color,
    shade_color z1 col = Some near /\ shade_color z2 col = Some far
    /\ color_le far near /\ color_ok near /\ color_ok far
    /\ darkening z1 <= darkening z2 /\ darkening z2 <= 65 # 100
    /\ 35 # 100 <= shade_of z2 /\ shade_of z2 <= shade_of z1.
Proof.
  intros H. destruct col as [[c0 c1] c2].
  destruct (shade_channel_mono c0 H) as (a0 & b0 & Ea0 & Eb0 & L0 & Oa0 & Ob0).
  destruct (shade_channel_mono c1 H) as (a1 & b1 & Ea1 & Eb1 & L1 & Oa1 & Ob1).
  destruct (shade_channel_mono c2 H) as (a2 & b2 & Ea2 & Eb2 & L2 & Oa2 & Ob2).
  exists (a0, a1, a2), (b0, b1, b2).
  unfold shade_color. rewrite Ea0, Ea1, Ea2, Eb0, Eb1, Eb2. cbn [bind].
  split; [reflexivity|]. split; [reflexivity|].
  split; [exact (conj L0 (conj L1 L2))|].
  split; [exact (conj Oa0 (conj Oa1 Oa2))|].
  split; [exact (conj Ob0 (conj Ob1 Ob2))|].
  split; [now apply darkening_mono|].
  split; [apply darkening_bounds|].
  split; [apply shade_of_bounds | now apply shade_of_antitone].
Qed.

End Shading.

(* ================================================================== *)
(** * The theorems at concrete inputs *)

Section Instances.
Local Open Scope Q_scope.

(** On doubles: the triangle nearer than the threshold is discarded, the
    straddling one passes the near-plane test and is projected. *)
Lemma near_plane_rejection_on_doubles :
  project (@axis_view float _) tri_near = None
  /\ passes_near (@axis_view float _) tri_straddling = true
  /\ project (@axis_view float _) tri_straddling <> None.
Proof.
  destruct (near_plane_rejection (@axis_view float _) tri_near) as [H _].
  destruct (near_plane_rejection (@axis_view float _) tri_straddling) as [_ H'].
  split; [apply H; repeat split; reflexivity|].
  destruct H' as (_ & Hn & Hp); [right; left; reflexivity|].
  split; [exact Hn | apply Hp; reflexivity].
Defined.

(** The two ties of [five_entries] come out in their input order. *)
Lemma depth_sort_five_entries :
  depth_sort (@five_entries Q _) = five_entries_sorted
  /\ StronglySorted far_first (depth_sort (@five_entries Q _))
  /\ filter (has_depth 3) (depth_sort (@five_entries Q _))
     = [ (3, [], BLUE); (3, [], WHITE) ].
Proof.
  destruct (depth_sort_spec (@five_entries Q _)) as (Hs & _ & Hf).
  split; [reflexivity|]. split; [exact Hs|]. rewrite Hf. reflexivity.
Defined.

(** RED at depth 0 and at depth 1100, where the brightness is one half. *)
Lemma shading_of_red :
  (exists near far : Color,
     shade_color 0 RED = Some near /\ shade_color 1100 RED = Some far
     /\ color_le far near /\ color_ok near /\ color_ok far
     /\ darkening 0 <= darkening 1100 /\ darkening 1100 <= 65 # 100
     /\ 35 # 100 <= shade_of 1100 /\ shade_of 1100 <= shade_of 0)
  /\ shade_color 0 RED = Some (220, 20, 60)%Z
  /\ shade_color 1100 RED = Some (110, 10, 30)%Z.
Proof.
  split; [|split; reflexivity].
  apply (@shading_monotone 0 1100 RED). discriminate.
Defined.

(** A jump from standing: the tick ends at height 16.8 with the vertical
    velocity 16.8, in the air. *)
Lemma jump_from_standing :
  Vector3.y (vel (@Player_update Q _ libm_at_zero press_space standing)) == 168 # 10
  /\ Vector3.y (pos (@Player_update Q _ libm_at_zero press_space standing)) == 168 # 10
  /\ grounded (@Player_update Q _ libm_at_zero press_space standing) = false.
Proof.
  destruct (@jump_and_landing libm_at_zero press_space standing)
    as (_ & _ & Hv & Hp & Hg & _);
    [reflexivity | reflexivity | discriminate |].
  split; [exact Hv|]. split; [rewrite Hp; reflexivity | exact Hg].
Defined.

(** Three idle ticks take the velocity (10, -5) to 0.82^3 times itself. *)
Lemma three_idle_ticks :
  Vector3.x (vel (@Player_run Q _ libm_at_zero [no_keys; no_keys; no_keys] gliding))
    == 551368 # 100000
  /\ Vector3.z (vel (@Player_run Q _ libm_at_zero [no_keys; no_keys; no_keys] gliding))
    == - (275684 # 100000).
Proof.
  destruct (@friction_law libm_at_zero gliding) as (_ & _ & H & _).
  destruct (H [no_keys; no_keys; no_keys]) as (Hx & Hz & _ & _).
  { repeat constructor. }
  split; [rewrite Hx | rewrite Hz]; reflexivity.
Defined.

(** The camera of the game's first tick: 15 below its target, then 13.8. *)
Lemma first_tick_of_the_camera :
  Vector3.y (@camera_target Q _ libm_at_zero (with_player bare_game
               (@Player_update Q _ libm_at_zero no_keys standing)))
    - Vector3.y (cam_pos (@tick Q _ libm_at_zero no_keys bare_game))
  == 15 * (92 # 100).
Proof.
  destruct (@camera_smoothing libm_at_zero no_keys bare_game) as (_ & (_ & Hy & _) & _).
  rewrite Hy. reflexivity.
Defined.

(** The level built with the computing [Libm], on rationals. *)
Lemma level_of_1559_triangles :
  exists l : list (Triangle.t Q),
    @Level_init Q _ libm_at_zero = Some l /\ length l = 1559%nat.
Proof.
  destruct (@level_build_deterministic Q _ libm_at_zero) as (l & H1 & H2 & _).
  exists l. split; assumption.
Defined.

(** A jump from standing in exact arithmetic: 28 ticks later the height
    is exactly 0 and the player still in the air, since 0 is not below
    the floor; the next tick lands it. *)
Lemma jump_arc_exact :
  let arc n := @Player_run Q _ libm_at_zero (press_space :: repeat no_keys n) standing in
  Vector3.y (pos (arc 28%nat)) == 0
  /\ grounded (arc 28%nat) = false
  /\ Vector3.y (pos (arc 29%nat)) = 0
  /\ Vector3.y (vel (arc 29%nat)) = 0
  /\ grounded (arc 29%nat) = true.
Proof. cbv zeta. repeat split; vm_compute; reflexivity. Qed.

(** The step of the walk cycle is not proportional to the speed.  A
    grounded tick at the walk speed 0.8 advances the cycle by 0.3 and one
    at the run speed 1.4 by 0.45: 3/8 of the speed and 9/28 of it, so no
    one factor serves both.  Nor does the velocity count: from rest and
    from a glide at (10, -5) the cycle advances by the same 0.3, while the
    velocities the tick ends with differ.  On doubles the two steps are
    0.3 and 0.44999999999999996, and the two ratios differ as well. *)
Lemma walk_step_is_not_proportional_to_speed :
  (walk_cycle (@Player_update Q _ libm_at_zero press_w gliding) - walk_cycle (@gliding Q _)
     == 3 # 10
   /\ @speed_of Q _ press_w == 8 # 10
   /\ walk_cycle (@Player_update Q _ libm_at_zero press_shift_w gliding)
        - walk_cycle (@gliding Q _) == 45 # 100
   /\ @speed_of Q _ press_shift_w == 14 # 10
   /\ ~ (exists k : Q,
           @walk_step Q _ press_w == k * speed_of press_w
           /\ @walk_step Q _ press_shift_w == k * speed_of press_shift_w)
   /\ walk_cycle (@Player_update Q _ libm_at_zero press_w standing)
        - walk_cycle (@standing Q _) == 3 # 10
   /\ Vector3.z (vel (@Player_update Q _ libm_at_zero press_w standing)) == 656 # 1000
   /\ Vector3.z (vel (@Player_update Q _ libm_at_zero press_w gliding)) == - (3444 # 1000))
  /\ (@walk_step float _ press_w = 0.3%float
      /\ @walk_step float _ press_shift_w = 0.44999999999999996%float
      /\ PrimFloat.eqb (@walk_step float _ press_w / speed_of press_w)%float
                       (@walk_step float _ press_shift_w / speed_of press_shift_w)%float
         = false).
Proof.
  split.
  - split; [reflexivity|]. split; [reflexivity|]. split; [reflexivity|].
    split; [reflexivity|]. split.
    + intros (k & H1 & H2).
      rewrite walk_step_Q in H1, H2. cbn [K_LSHIFT K_RSHIFT press_w press_shift_w orb] in H1, H2.
      assert (E1 : @speed_of Q _ press_w == 8 # 10) by reflexivity.
      assert (E2 : @speed_of Q _ press_shift_w == 14 # 10) by reflexivity.
      rewrite E1 in H1. rewrite E2 in H2. lra.
    + split; [reflexivity|]. split; reflexivity.
  - split; [reflexivity|]. split; reflexivity.
Qed.

(** Walking, running, standing still, and walking in the air. *)
Lemma walk_cycle_of_four_ticks :
  walk_cycle (@Player_update Q _ libm_at_zero press_w gliding) == 2 + (3 # 10)
  /\ walk_cycle (@Player_update Q _ libm_at_zero press_shift_w gliding) == 2 + (45 # 100)
  /\ walk_cycle (@Player_update Q _ libm_at_zero no_keys gliding) = 0
  /\ walk_cycle (@Player_update Q _ libm_at_zero press_w falling) = 2.
Proof.
  destruct (@walk_cycle_law libm_at_zero press_w gliding) as (_ & H1 & _).
  destruct (@walk_cycle_law libm_at_zero press_shift_w gliding) as (_ & H2 & _).
  destruct (@walk_cycle_law libm_at_zero no_keys gliding) as (H3 & _).
  destruct (@walk_cycle_law libm_at_zero press_w falling) as (_ & _ & H4 & _).
  split; [rewrite H1; [reflexivity | discriminate | reflexivity]|].
  split; [rewrite H2; [reflexivity | discriminate | reflexivity]|].
  split; [apply H3; reflexivity|].
  apply H4; [discriminate | reflexivity].
Defined.

(** A fall from height 1 at the vertical velocity -3 ends on the floor. *)
Lemma falling_player_lands :
  Vector3.y (pos (@Player_update Q _ libm_at_zero no_keys falling)) = 0
  /\ Vector3.y (vel (@Player_update Q _ libm_at_zero no_keys falling)) = 0
  /\ grounded (@Player_update Q _ libm_at_zero no_keys falling) = true.
Proof.
  destruct (@floor_invariant libm_at_zero no_keys falling) as (_ & H & _).
  apply H. reflexivity.
Defined.

End Instances.

(* ================================================================== *)
(** * The program on doubles *)

Section Doubles.
Local Open Scope float_scope.

(** The decimal literals of the source, as [dec] builds them, are the
    doubles its literals denote. *)
Lemma literals_on_doubles :
  @third float _ = 0.33333 /\ @depth_epsilon float _ = 0.1
  /\ @GRAVITY float _ = 1.2 /\ @MOVE_SPEED float _ = 0.8 /\ @RUN_SPEED float _ = 1.4
  /\ @FRICTION float _ = 0.82 /\ @TURN_SPEED float _ = 0.09
  /\ @CAM_SMOOTH float _ = 0.08
  /\ dec 5 1 = 0.5 /\ dec 125 2 = 1.25 /\ dec 85 2 = 0.85 /\ dec 4 1 = 0.4
  /\ dec 3 1 = 0.3 /\ dec 15 1 = 1.5 /\ dec 65 2 = 0.65.
Proof. repeat split; reflexivity. Qed.

(** A jump from standing, then 28 ticks without keys: the player is a hair
    above the floor and still in the air; one more tick and it has landed
    with the vertical velocity 0. *)
Lemma jump_arc_on_doubles :
  let arc n := @Player_run float _ libm_at_zero (press_space :: repeat no_keys n) standing in
  Vector3.y (vel (arc 0%nat)) = 18 - 1.2
  /\ grounded (arc 0%nat) = false
  /\ ltb 0 (Vector3.y (pos (arc 28%nat))) = true
  /\ grounded (arc 28%nat) = false
  /\ Vector3.y (pos (arc 29%nat)) = 0
  /\ Vector3.y (vel (arc 29%nat)) = 0
  /\ grounded (arc 29%nat) = true.
Proof. cbv zeta. repeat split; vm_compute; reflexivity. Qed.

(** The sort keeps the ties of [five_entries] in their input order. *)
Lemma depth_sort_on_doubles :
  depth_sort (@five_entries float _) = five_entries_sorted.
Proof. reflexivity. Qed.

(** RED at half brightness; a depth beyond the cap; and a depth that is
    not a number, on which [int()] raises. *)
Lemma shading_on_doubles :
  shade_color 1100 RED = Some (110, 10, 30)%Z
  /\ shade_color 5000 WHITE = Some (89, 89, 89)%Z
  /\ shade_color 1e9 WHITE = Some (89, 89, 89)%Z
  /\ shade_color nan RED = None.
Proof. repeat split; vm_compute; reflexivity. Qed.

End Doubles.


(* ================================================================== *)
(** * Further properties *)

(** A [Forall] over an explicit list, entry by entry; a conjunction into
    its parts. *)
Ltac forall_list := repeat first [apply Forall_cons | apply Forall_nil].
Ltac conjs := repeat match goal with |- _ /\ _ => split end.

Section BuilderShapes.
Local Open Scope Q_scope.

(** X1.  A box is ten triangles appended to the list: two in the top
    colour, four in the front colour, four in the side colour.  For
    non-negative dimensions every vertex lies in the box standing on
    [(cx, by, cz)], and every triangle has a vertex on the top plane: no
    triangle lies in the bottom face. *)
Theorem add_box_shape (tris : list (Triangle.t Q)) (cx by_ cz w h d : Q)
    (c1 c2 c3 : Color) :
  0 <= w -> 0 <= h -> 0 <= d ->
  exists added : list (Triangle.t Q),
    add_box tris cx by_ cz w h d c1 c2 c3 = tris ++ added
    /\ map Triangle.color added = [c1; c1; c2; c2; c2; c2; c3; c3; c3; c3]
    /\ Forall (all_vertices (in_box cx by_ cz w h d)) added
    /\ Forall (some_vertex (fun v => Vector3.y v == by_ + h)) added.
Proof.
  intros Hw Hh Hd. eexists. split; [reflexivity|]. split; [reflexivity|].
  assert (E : @dec Q exactQ 5 1 == 1 # 2) by reflexivity.
  split.
  - forall_list; unfold all_vertices, in_box, Triangle_init;
      cbn [Triangle.v1 Triangle.v2 Triangle.v3 Vector3.x Vector3.y Vector3.z fadd fsub fmul exactQ];
      rewrite ?E; unfold Qdiv; change (/ 2) with (1 # 2); conjs; lra.
  - forall_list; unfold some_vertex, Triangle_init;
      cbn [Triangle.v1 Triangle.v2 Triangle.v3 Vector3.x Vector3.y Vector3.z fadd fsub fmul exactQ];
      first [left; reflexivity | right; left; reflexivity | right; right; reflexivity].
Qed.
End BuilderShapes.

Section RingBuilders.
Context {F : Type} {SF : Scalar F} {LM : Libm F}.
Local Open Scope scalar_scope.

Lemma range_length (n : Z) : length (range n) = Z.to_nat n.
Proof. unfold range. now rewrite length_map, length_seq. Qed.

Lemma for_each_length {A T : Type} (xs : list A) (body : A -> list T -> list T) (k : nat) :
  (forall a s, length (body a s) = (length s + k)%nat) ->
  forall s, length (for_each xs body s) = (length s + k * length xs)%nat.
Proof.
  intros Hb. unfold for_each. induction xs as [|a xs IH]; intros s; cbn [fold_left length].
  - lia.
  - rewrite IH, Hb. lia.
Qed.

Lemma for_each_Forall {A T : Type} (P : T -> Prop) (xs : list A)
    (body : A -> list T -> list T) :
  (forall a s, In a xs -> Forall P s -> Forall P (body a s)) ->
  forall s, Forall P s -> Forall P (for_each xs body s).
Proof.
  unfold for_each. induction xs as [|a xs IH]; intros Hb s Hs; cbn [fold_left].
  - exact Hs.
  - apply IH.
    + intros b t Hin. apply Hb. now right.
    + apply Hb; [now left | exact Hs].
Qed.


End RingBuilders.

Section CompositeBuilders.
Context {F : Type} {SF : Scalar F} {LM : Libm F}.

(** X3.  A tower never fails, whatever its position and sizes: it
    appends 103 triangles, 24 of the wall, 8 of the roof, the 10 white
    ones and the red one of the flag, and 60 of the six windows. *)
Theorem peach_tower_shape (tris : list (Triangle.t F))
    (cx by_ cz radius height roof_height : F) (wall_color roof_color : Color) :
  exists added : list (Triangle.t F),
    add_peach_tower tris cx by_ cz radius height roof_height wall_color roof_color
      = Some (tris ++ added)
    /\ map Triangle.color added
       = repeat wall_color 24 ++ repeat roof_color 8 ++ repeat WHITE 10
         ++ [FLAG_RED] ++ repeat WINDOW_BLUE 60.
Proof.
  rewrite (appends_add_peach_tower cx by_ cz radius height roof_height
             wall_color roof_color tris).
  destruct (add_peach_tower [] cx by_ cz radius height roof_height wall_color roof_color)
    as [added|] eqn:E; [|discriminate E].
  exists added. split; [reflexivity|].
  injection E as <-. reflexivity.
Qed.

End CompositeBuilders.

Section Battlements.
Local Open Scope Q_scope.

Lemma in_range (i n : Z) : In i (range n) -> (0 <= i < n)%Z.
Proof.
  unfold range. rewrite in_map_iff. intros (k & <- & Hk).
  apply in_seq in Hk. lia.
Qed.

(** X4.  A row of battlements of a non-negative length is ten triangles
    per merlon, none for a count of 0 or less, and the whole row stays
    within the length given, centred on the anchor, along the axis chosen:
    every vertex lies in the box of that length, 22 high and 16 deep. *)
Theorem battlements_span (tris : list (Triangle.t Q)) (cx by_ cz : Q) (len : Z)
    (is_z_axis : bool) (col : Color) (count : Z) :
  (0 <= len)%Z ->
  exists added : list (Triangle.t Q),
    add_battlements tris cx by_ cz len is_z_axis col count = tris ++ added
    /\ length added = (10 * Z.to_nat count)%nat
    /\ Forall (all_vertices
                 (if is_z_axis
                  then in_box cx by_ cz 16 22 (inject_Z len)
                  else in_box cx by_ cz (inject_Z len) 22 16)) added.
Proof.
  intros Hlen.
  rewrite (appends_add_battlements cx by_ cz len is_z_axis col count tris).
  eexists. split; [reflexivity|]. unfold add_battlements. split.
  - rewrite (for_each_length _ _ 10), range_length; [cbn; lia|].
    intros i s. destruct is_z_axis; unfold add_box; rewrite length_app; reflexivity.
  - apply for_each_Forall; [|constructor].
    intros i s Hi Hs. apply in_range in Hi.
    assert (HN : 0 < inject_Z (count * 2 - 1)).
    { change 0 with (inject_Z 0). rewrite <- Zlt_Qlt. lia. }
    assert (HI : 0 <= inject_Z i).
    { change 0 with (inject_Z 0). rewrite <- Zle_Qle. lia. }
    assert (HIN : 2 * inject_Z i + 1 <= inject_Z (count * 2 - 1)).
    { change 2 with (inject_Z 2). change 1 with (inject_Z 1).
      rewrite <- inject_Z_mult, <- inject_Z_plus, <- Zle_Qle. lia. }
    assert (HL : 0 <= inject_Z len).
    { change 0 with (inject_Z 0). rewrite <- Zle_Qle. exact Hlen. }
    assert (HW : inject_Z len / inject_Z (count * 2 - 1) * inject_Z (count * 2 - 1)
                 == inject_Z len) by (field; lra).
    assert (HW0 : 0 <= inject_Z len / inject_Z (count * 2 - 1)).
    { apply Qle_shift_div_l; [exact HN | lra]. }
    assert (E : @dec Q exactQ 5 1 == 1 # 2) by reflexivity.
    cbn [of_Z fadd fsub fmul fdiv exactQ]. rewrite inject_Z_opp.
    change (inject_Z 2) with 2. change (inject_Z 22) with 22. change (inject_Z 16) with 16.
    set (W := inject_Z len / inject_Z (count * 2 - 1)) in *.
    set (N := inject_Z (count * 2 - 1)) in *.
    set (I := inject_Z i) in *. set (L := inject_Z len) in *.
    assert (P1 : 0 <= I * W) by nra.
    assert (P2 : 0 <= W * (N - 2 * I - 1)) by nra.
    destruct is_z_axis; unfold add_box; apply Forall_app; (split; [exact Hs|]);
      forall_list; unfold all_vertices, in_box, Triangle_init;
      cbn [Triangle.v1 Triangle.v2 Triangle.v3 Vector3.x Vector3.y Vector3.z
           fadd fsub fmul exactQ];
      rewrite ?E; unfold Qdiv; change (/ 2) with (1 # 2); conjs; nra.
Qed.

End Battlements.

Section Controls.
Context {F : Type} {SF : Scalar F} {LM : Libm F}.
Local Open Scope scalar_scope.

Lemma steer_ignores_space (keys : Keys) (p : Player) :
  steer (release_space keys) p = steer keys p.
Proof. reflexivity. Qed.

(** X5.  There is no jump in the air: on a tick that starts with
    [grounded] false the jump key changes nothing, and the vertical
    velocity only loses [GRAVITY] or, on landing, becomes 0. *)
Theorem no_jump_in_the_air (keys : Keys) (p : Player) :
  grounded p = false ->
  Player_update keys p = Player_update (release_space keys) p
  /\ Vector3.y (vel (Player_update keys p))
     = (if Vector3.y (pos p) + (Vector3.y (vel p) - GRAVITY) <? of_Z 0
        then of_Z 0 else Vector3.y (vel p) - GRAVITY).
Proof.
  intros Hg. destruct (steer_keeps_vertical keys p) as (Hp & Hv & Hs).
  assert (Hj : jump keys (steer keys p) = steer keys p).
  { unfold jump. rewrite Hs, Hg, andb_false_r. reflexivity. }
  split.
  - unfold Player_update. rewrite steer_ignores_space, Hj.
    unfold jump. cbn [K_SPACE release_space andb]. reflexivity.
  - unfold Player_update. rewrite Hj. unfold land, integrate.
    cbn [pos vel Vector3.x Vector3.y Vector3.z]. rewrite Hp, Hv.
    destruct (Vector3.y (pos p) + (Vector3.y (vel p) - GRAVITY) <? of_Z 0); reflexivity.
Qed.

(** X6.  Opposite keys do not cancel.  With a forward and a backward key
    down the player is pushed backward, and with a left and a right key
    down it turns right: the later test of [Player.update] overwrites the
    earlier one. *)
Theorem opposite_keys (keys : Keys) (p : Player) :
  ((K_UP keys || K_w keys) && (K_DOWN keys || K_s keys) = true ->
     let yaw' := yaw p + of_Z (turning_of keys) * TURN_SPEED in
     forward_of keys = (-1)%Z
     /\ Vector3.x (vel (Player_update keys p))
        = (Vector3.x (vel p) + fsin yaw' * speed_of keys * of_Z (-1)) * FRICTION
     /\ Vector3.z (vel (Player_update keys p))
        = (Vector3.z (vel p) + fcos yaw' * speed_of keys * of_Z (-1)) * FRICTION)
  /\ ((K_LEFT keys || K_a keys) && (K_RIGHT keys || K_d keys) = true ->
      turning_of keys = (-1)%Z
      /\ yaw (Player_update keys p) = yaw p + of_Z (-1) * TURN_SPEED).
Proof.
  split.
  - intros H. apply andb_true_iff in H. destruct H as [Hu Hd].
    assert (Hf : forward_of keys = (-1)%Z).
    { unfold forward_of. rewrite Hd. reflexivity. }
    cbv zeta. split; [exact Hf|].
    destruct (horizontal_velocity_after_update keys p) as [-> ->].
    unfold steer. rewrite Hf. cbn. split; reflexivity.
  - intros H. apply andb_true_iff in H. destruct H as [Hl Hr].
    assert (Ht : turning_of keys = (-1)%Z).
    { unfold turning_of. rewrite Hr. reflexivity. }
    split; [exact Ht|].
    unfold Player_update, land, integrate, jump, steer. rewrite Ht.
    repeat match goal with |- context [if ?b then _ else _] => destruct b end;
      reflexivity.
Qed.

End Controls.

Section Falling.
Context {LM : Libm Q}.
Local Open Scope Q_scope.

Lemma launch_velocity_no_jump (keys : Keys) (p : @Player Q) :
  (K_SPACE keys && grounded p)%bool = false ->
  launch_velocity keys p = Vector3.y (vel p) - GRAVITY.
Proof. unfold launch_velocity. now intros ->. Qed.

(** One tick in which no jump fires: the player lands, or its vertical
    velocity has lost [GRAVITY] and its height has gained the new velocity. *)
Lemma fall_step (keys : Keys) (p : @Player Q) :
  (K_SPACE keys && grounded p)%bool = false ->
  landed (Player_update keys p)
  \/ (Vector3.y (vel (Player_update keys p)) = Vector3.y (vel p) - GRAVITY
      /\ Vector3.y (pos (Player_update keys p))
         = Vector3.y (pos p) + (Vector3.y (vel p) - GRAVITY)).
Proof.
  intros Hj.
  destruct (Qlt_le_dec (integrated_height keys p) 0) as [H|H].
  - left. exact (landing_tick H).
  - right. rewrite (flying_tick H).
    destruct (integrate_height keys p) as [Hy Hv].
    rewrite Hy, Hv. unfold integrated_height.
    rewrite (launch_velocity_no_jump keys p Hj). split; reflexivity.
Qed.

Lemma rest_is_stable (keys : Keys) (p : @Player Q) :
  no_jump keys -> landed p -> landed (Player_update keys p).
Proof.
  intros Hk (Hy & Hv & _). apply landing_tick.
  unfold integrated_height. rewrite launch_velocity_no_jump.
  - rewrite Hy, Hv. reflexivity.
  - unfold no_jump in Hk. rewrite Hk. reflexivity.
Qed.

Lemma run_stays_landed (inputs : list Keys) (p : @Player Q) :
  Forall no_jump inputs -> landed p -> landed (Player_run inputs p).
Proof.
  intros H. revert p. induction H as [|keys inputs Hk _ IH]; intros p Hp; [exact Hp|].
  cbn [Player_run fold_left]. apply IH. now apply rest_is_stable.
Qed.

Lemma run_not_below_floor (inputs : list Keys) (p : @Player Q) :
  inputs <> [] -> 0 <= Vector3.y (pos (Player_run inputs p)).
Proof.
  revert p. induction inputs as [|keys inputs IH]; intros p H; [contradiction|].
  cbn [Player_run fold_left]. destruct inputs as [|k' r].
  - cbn [fold_left]. apply Qltb_ge.
    exact (@update_not_below_floor Q exactQ LM keys p eq_refl).
  - apply IH. discriminate.
Qed.

(** While no jump fires and the player has not landed, its fall is the
    parabola of the constant gravity. *)
Lemma fall_closed_form (inputs : list Keys) (p : @Player Q) :
  Forall no_jump inputs ->
  let k := inject_Z (Z.of_nat (length inputs)) in
  landed (Player_run inputs p)
  \/ (Vector3.y (vel (Player_run inputs p)) == Vector3.y (vel p) - k * (12 # 10)
      /\ Vector3.y (pos (Player_run inputs p))
         == Vector3.y (pos p) + k * Vector3.y (vel p) - (6 # 10) * k * (k + 1)).
Proof.
  intros H. revert p. induction H as [|keys inputs Hk Hin IH]; intros p.
  - right. cbn. split; ring.
  - cbn [Player_run fold_left length]. fold (Player_run inputs (Player_update keys p)).
    assert (Ek : inject_Z (Z.of_nat (S (length inputs)))
                 == inject_Z (Z.of_nat (length inputs)) + 1).
    { rewrite Nat2Z.inj_succ. unfold Z.succ. rewrite inject_Z_plus. reflexivity. }
    cbv zeta in *. rewrite Ek.
    assert (Hj : (K_SPACE keys && grounded p)%bool = false).
    { unfold no_jump in Hk. rewrite Hk. reflexivity. }
    destruct (@fall_step keys p Hj) as [Hl|[Hv Hy]].
    + left. apply run_stays_landed; assumption.
    + destruct (IH (Player_update keys p)) as [Hl|[Ev Ey]]; [now left|].
      right. rewrite Ev, Ey, Hv, Hy.
      assert (Eg : @GRAVITY Q exactQ == 12 # 10) by reflexivity.
      rewrite Eg. split; ring.
Qed.

(** X7.  Without the jump key the player always comes down: from every
    state there is a number of ticks after which, whatever the other keys,
    the player is on the floor, at rest vertically and grounded, and it
    stays so as long as the jump key is up. *)
Theorem landing_is_certain (p : @Player Q) :
  exists N : nat,
    forall inputs : list Keys,
      Forall no_jump inputs -> (N <= length inputs)%nat ->
      landed (Player_run inputs p).
Proof.
  set (y := Vector3.y (pos p)). set (v := Vector3.y (vel p)).
  exists (Z.to_nat (Qceiling (2 * Qabs v + 2 * Qabs y + 2))).
  intros inputs Hin Hlen.
  pose proof (Qabs_nonneg v) as Hv0. pose proof (Qabs_nonneg y) as Hy0.
  pose proof (Qle_Qabs v) as Hv. pose proof (Qle_Qabs y) as Hy.
  assert (Hk : 2 * Qabs v + 2 * Qabs y + 2 <= inject_Z (Z.of_nat (length inputs))).
  { eapply Qle_trans; [apply Qle_ceiling|]. rewrite <- Zle_Qle. lia. }
  assert (Hne : inputs <> []).
  { intros ->. cbn in Hk. change (inject_Z 0) with 0 in Hk. lra. }
  destruct (fall_closed_form p Hin) as [Hl|[_ Ey]]; [exact Hl|].
  exfalso. pose proof (run_not_below_floor p Hne) as H0.
  cbv zeta in Ey. rewrite Ey in H0. fold y v in H0.
  set (k := inject_Z (Z.of_nat (length inputs))) in *.
  set (av := Qabs v) in *. set (ay := Qabs y) in *.
  assert (P : k * v <= k * av) by nra.
  nra.
Qed.

(** X8.  On a tick in which no jump fires and the vertical velocity is
    below [GRAVITY], a player above the floor loses height and a player on
    the floor stays on it; the vertical velocity loses exactly [GRAVITY]
    unless the player lands. *)
Theorem gravity_pulls_down (keys : Keys) (p : @Player Q) :
  (K_SPACE keys && grounded p)%bool = false ->
  Vector3.y (vel p) < GRAVITY ->
  (0 < Vector3.y (pos p) ->
     Vector3.y (pos (Player_update keys p)) < Vector3.y (pos p))
  /\ (Vector3.y (pos p) == 0 -> landed (Player_update keys p))
  /\ (Vector3.y (vel (Player_update keys p)) == Vector3.y (vel p) - GRAVITY
      \/ landed (Player_update keys p)).
Proof.
  intros Hj Hv.
  assert (Eg : @GRAVITY Q exactQ == 12 # 10) by reflexivity. rewrite Eg in Hv.
  split; [|split].
  - intros Hy. destruct (@fall_step keys p Hj) as [(E & _)|[_ E]]; rewrite E.
    + exact Hy.
    + cbn [fadd fsub exactQ]. rewrite Eg. lra.
  - intros Hy. apply landing_tick. unfold integrated_height.
    rewrite (launch_velocity_no_jump keys p Hj). cbn [fadd fsub exactQ]. rewrite Eg, Hy. lra.
  - destruct (@fall_step keys p Hj) as [H|[E _]]; [now right|left].
    rewrite E. reflexivity.
Qed.

End Falling.

Section Gliding.
Context {LM : Libm Q}.
Local Open Scope Q_scope.

Lemma glide_step (keys : Keys) (p : @Player Q) :
  bounded_trig LM ->
  Qabs (Vector3.x (vel p)) <= glide_bound ->
  Qabs (Vector3.z (vel p)) <= glide_bound ->
  Qabs (Vector3.x (vel (Player_update keys p))) <= glide_bound
  /\ Qabs (Vector3.z (vel (Player_update keys p))) <= glide_bound.
Proof.
  intros Ht Hx Hz. apply Qabs_Qle_condition in Hx, Hz.
  destruct (friction_every_tick keys p) as [Ex Ez]. cbv zeta in Ex, Ez.
  rewrite Ex, Ez. clear Ex Ez.
  destruct (Ht (yaw p + inject_Z (turning_of keys) * TURN_SPEED)) as (S1 & S2 & C1 & C2).
  set (sn := fsin _) in *. set (cs := fcos _) in *.
  assert (Ef : @FRICTION Q exactQ == 82 # 100) by reflexivity.
  assert (Er : @RUN_SPEED Q exactQ == 14 # 10) by reflexivity.
  assert (Em : @MOVE_SPEED Q exactQ == 8 # 10) by reflexivity.
  unfold glide_bound in *. rewrite Ef.
  unfold speed_of, forward_of.
  destruct (K_LSHIFT keys || K_RSHIFT keys)%bool, (K_UP keys || K_w keys)%bool,
    (K_DOWN keys || K_s keys)%bool; cbn [negb Z.eqb];
    rewrite ?Er, ?Em; change (inject_Z (-1)) with (-1); change (inject_Z 1) with 1;
    split; apply Qabs_Qle_condition; split; lra.
Qed.

(** X9.  With a sine and a cosine within [-1, 1], each horizontal velocity
    component that is within [1.4 * 0.82 / 0.18 = 287/45] in absolute
    value stays within it over every sequence of ticks, whatever the
    keys: friction caps the speed the keys can build up. *)
Theorem glide_bound_invariant (inputs : list Keys) (p : @Player Q) :
  bounded_trig LM ->
  Qabs (Vector3.x (vel p)) <= glide_bound ->
  Qabs (Vector3.z (vel p)) <= glide_bound ->
  Qabs (Vector3.x (vel (Player_run inputs p))) <= glide_bound
  /\ Qabs (Vector3.z (vel (Player_run inputs p))) <= glide_bound.
Proof.
  intros Ht. revert p. induction inputs as [|keys inputs IH]; intros p Hx Hz.
  - split; assumption.
  - cbn [Player_run fold_left]. destruct (glide_step keys p Ht Hx Hz) as [Hx' Hz'].
    exact (IH _ Hx' Hz').
Qed.

End Gliding.

Section CameraSettling.
Context {LM : Libm Q}.
Local Open Scope Q_scope.

Lemma update_camera_frame (g : @Game Q) :
  player (update_camera g) = player g /\ level (update_camera g) = level g
  /\ cam_dist (update_camera g) = cam_dist g
  /\ cam_pitch_height (update_camera g) = cam_pitch_height g
  /\ camera_target (update_camera g) = camera_target g.
Proof. repeat split. Qed.

Lemma camera_settle_frame (n : nat) (g : @Game Q) :
  player (camera_settle n g) = player g /\ level (camera_settle n g) = level g
  /\ camera_target (camera_settle n g) = camera_target g.
Proof.
  induction n as [|n (Hp & Hl & Ht)]; [repeat split|].
  change (camera_settle (S n) g) with (update_camera (camera_settle n g)).
  destruct (update_camera_frame (camera_settle n g)) as (-> & -> & _ & _ & ->).
  repeat split; assumption.
Qed.

(** X10.  With the player left alone, [n] camera updates leave the target
    where it is and multiply the camera's offset from it by [0.92^n] on
    each axis, a factor between 0 and 1: the camera closes in on its
    target without passing it.  The player and the level are untouched. *)
Theorem camera_settles (n : nat) (g : @Game Q) :
  let t := camera_target g in
  let c := cam_pos g in
  let c' := cam_pos (camera_settle n g) in
  let r := (92 # 100) ^ Z.of_nat n in
  (Vector3.x t - Vector3.x c' == (Vector3.x t - Vector3.x c) * r
   /\ Vector3.y t - Vector3.y c' == (Vector3.y t - Vector3.y c) * r
   /\ Vector3.z t - Vector3.z c' == (Vector3.z t - Vector3.z c) * r)
  /\ 0 <= r /\ r <= 1
  /\ player (camera_settle n g) = player g
  /\ level (camera_settle n g) = level g.
Proof.
  cbv zeta. induction n as [|n IH].
  - cbn. repeat split; try ring; discriminate.
  - destruct IH as ((Ex & Ey & Ez) & H0 & H1 & Hp & Hl).
    destruct (camera_settle_frame n g) as (_ & _ & Ht).
    rewrite Qpower_succ_nat.
    assert (Ek : 1 - @CAM_SMOOTH Q exactQ == 92 # 100) by reflexivity.
    change (camera_settle (S n) g) with (update_camera (camera_settle n g)).
    destruct (update_camera_frame (camera_settle n g)) as (Fp & Fl & _).
    rewrite Fp, Fl, Hp, Hl.
    change (cam_pos (update_camera (camera_settle n g)))
      with (Vector3.new
              (smooth (Vector3.x (cam_pos (camera_settle n g)))
                      (Vector3.x (camera_target (camera_settle n g))))
              (smooth (Vector3.y (cam_pos (camera_settle n g)))
                      (Vector3.y (camera_target (camera_settle n g))))
              (smooth (Vector3.z (cam_pos (camera_settle n g)))
                      (Vector3.z (camera_target (camera_settle n g))))).
    cbn [Vector3.x Vector3.y Vector3.z]. rewrite Ht, !smooth_gap, Ex, Ey, Ez, Ek.
    set (r := (92 # 100) ^ Z.of_nat n) in *.
    split; [split; [ring | split; ring]|].
    split; [nra|]. split; [nra|]. split; reflexivity.
Qed.

End CameraSettling.

Section Frames.
Context {F : Type} {SF : Scalar F} {LM : Libm F}.
Local Open Scope scalar_scope.

(** X11.  Over every sequence of ticks of the game loop the player's
    state is what [Player.update] alone makes of it: the camera never
    feeds back into the player.  The level, the camera distance and the
    camera height are never changed. *)
Theorem player_ignores_camera (inputs : list Keys) (g : @Game F) :
  player (Game_run inputs g) = Player_run inputs (player g)
  /\ level (Game_run inputs g) = level g
  /\ cam_dist (Game_run inputs g) = cam_dist g
  /\ cam_pitch_height (Game_run inputs g) = cam_pitch_height g.
Proof.
  revert g. induction inputs as [|keys inputs IH]; intros g; [repeat split|].
  cbn [Game_run Player_run fold_left].
  destruct (IH (tick keys g)) as (Hp & Hl & Hd & Hh).
  unfold Game_run, Player_run in *. rewrite Hp, Hl, Hd, Hh. repeat split.
Qed.

Lemma project_all_from (g : @Game F) (tris : list (Triangle.t F)) (acc : list ScreenTri) :
  fold_left
    (fun screen_tris tri =>
       match
         project_triangle tri (Vector3.x (cam_pos g)) (Vector3.y (cam_pos g))
           (Vector3.z (cam_pos g)) (fcos (cam_yaw g)) (fsin (cam_yaw g))
           RENDER_WIDTH RENDER_HEIGHT (of_Z RENDER_WIDTH / of_Z 2)
           (of_Z RENDER_HEIGHT / of_Z 2)
       with
       | Some res => screen_tris ++ [res]
       | None => screen_tris
       end) tris acc
  = acc ++ survivors (draw_view g) tris.
Proof.
  revert acc. induction tris as [|t r IH]; intros acc; cbn [fold_left survivors].
  - now rewrite app_nil_r.
  - rewrite IH. unfold project at 1. cbn [draw_view cam_x cam_y cam_z cos_yaw sin_yaw
      width height half_w half_h].
    destruct (project_triangle t _ _ _ _ _ _ _ _ _); [|reflexivity].
    now rewrite <- app_assoc.
Qed.

Lemma project_all_survivors (g : @Game F) (tris : list (Triangle.t F)) :
  project_all g tris = survivors (draw_view g) tris.
Proof. unfold project_all, for_each. apply (project_all_from g tris []). Qed.

Lemma survivors_app (vw : View) (l1 l2 : list (Triangle.t F)) :
  survivors vw (l1 ++ l2) = survivors vw l1 ++ survivors vw l2.
Proof.
  induction l1 as [|t r IH]; [reflexivity|]. cbn [app survivors].
  destruct (project vw t); rewrite IH; reflexivity.
Qed.

Lemma survivors_origin (vw : View) (tris : list (Triangle.t F)) (res : ScreenTri) :
  In res (survivors vw tris) -> exists t, In t tris /\ project vw t = Some res.
Proof.
  induction tris as [|t r IH]; [intros []|]. cbn [survivors].
  destruct (project vw t) as [res'|] eqn:E.
  - intros [<-|H]; [exists t; split; [now left | exact E]|].
    destruct (IH H) as (t' & Hin & Hp). exists t'. split; [now right | exact Hp].
  - intros H. destruct (IH H) as (t' & Hin & Hp). exists t'. split; [now right | exact Hp].
Qed.

Lemma survivors_length (vw : View) (tris : list (Triangle.t F)) :
  (length (survivors vw tris) <= length tris)%nat.
Proof.
  induction tris as [|t r IH]; [constructor|]. cbn [survivors length].
  destruct (project vw t); cbn [length]; lia.
Qed.

(** X12.  The projection loop of [Game.draw] keeps the order of the
    triangles: the list it returns for [l1 ++ l2] is the one for [l1]
    followed by the one for [l2]; it is never longer than its input; each
    entry is the projection of a triangle of the input; and a triangle
    that [project_triangle] rejects leaves no trace. *)
Theorem projection_loop (g : @Game F) (l1 l2 : list (Triangle.t F)) :
  project_all g (l1 ++ l2) = project_all g l1 ++ project_all g l2
  /\ (length (project_all g l1) <= length l1)%nat
  /\ (forall res : ScreenTri,
        In res (project_all g l1) ->
        exists t, In t l1 /\ project (draw_view g) t = Some res)
  /\ (forall t : Triangle.t F,
        project (draw_view g) t = None -> project_all g (l1 ++ t :: l2) = project_all g (l1 ++ l2)).
Proof.
  rewrite !project_all_survivors. split; [apply survivors_app|].
  split; [apply survivors_length|]. split; [apply survivors_origin|].
  intros t Ht. rewrite !project_all_survivors, !survivors_app. cbn [survivors].
  now rewrite Ht.
Qed.

End Frames.

Section DrawFacts.
Context {F : Type} {SF : Scalar F} {LM : Libm F}.
Local Open Scope scalar_scope.

Lemma insert_by_depth_length (s : @ScreenTri F) (l : list ScreenTri) :
  length (insert_by_depth s l) = S (length l).
Proof.
  induction l as [|s' r IH]; [reflexivity|]. cbn [insert_by_depth].
  destruct (depth_of s <? depth_of s'); cbn [length]; [now rewrite IH | reflexivity].
Qed.

Lemma insert_by_depth_Forall (P : @ScreenTri F -> Prop) (s : ScreenTri)
    (l : list ScreenTri) :
  P s -> Forall P l -> Forall P (insert_by_depth s l).
Proof.
  intros Hs. induction 1 as [|s' r Hs' Hr IH]; cbn [insert_by_depth]; [now constructor|].
  destruct (depth_of s <? depth_of s'); repeat constructor; assumption.
Qed.

Lemma depth_sort_length (l : list (@ScreenTri F)) : length (depth_sort l) = length l.
Proof.
  induction l as [|s l IH]; [reflexivity|]. cbn [depth_sort fold_right length].
  fold (depth_sort l). now rewrite insert_by_depth_length, IH.
Qed.

Lemma depth_sort_Forall (P : @ScreenTri F -> Prop) (l : list ScreenTri) :
  Forall P l -> Forall P (depth_sort l).
Proof.
  induction 1 as [|s l Hs Hl IH]; [constructor|]. cbn [depth_sort fold_right].
  now apply insert_by_depth_Forall.
Qed.

Lemma shade_channel_range (z : F) (c a : Z) :
  shade_channel z c = Some a -> channel_ok a.
Proof.
  unfold shade_channel. destruct (ftrunc (of_Z c * shade_of z)); [|discriminate].
  cbn [bind]. intros [= <-]. unfold channel_ok. lia.
Qed.

Lemma shade_color_range (z : F) (col rgb : Color) :
  shade_color z col = Some rgb -> color_ok rgb.
Proof.
  destruct col as [[c0 c1] c2]. unfold shade_color.
  destruct (shade_channel z c0) as [r|] eqn:E0; [|discriminate].
  destruct (shade_channel z c1) as [g|] eqn:E1; [|discriminate].
  destruct (shade_channel z c2) as [b|] eqn:E2; [|discriminate].
  cbn [bind]. intros [= <-]. unfold color_ok.
  split; [|split]; eapply shade_channel_range; eassumption.
Qed.

Lemma survivors_three_points (vw : View) (tris : list (Triangle.t F)) :
  Forall (fun s : ScreenTri => length (snd (fst s)) = 3%nat) (survivors vw tris).
Proof.
  induction tris as [|t r IH]; [constructor|]. cbn [survivors].
  destruct (project vw t) as [res|] eqn:E; [|exact IH].
  constructor; [|exact IH]. rewrite project_triangle_unfold in E.
  destruct (passes_near vw t); [|discriminate].
  destruct (passes_bounds vw t); [|discriminate].
  injection E as <-. reflexivity.
Qed.

Lemma shading_loop (screen_tris : list ScreenTri) (acc polys : list (Color * list (F * F))) :
  for_each_opt screen_tris
    (fun '(z, pts, col) polys =>
       bind (shade_color z col) (fun rgb => Some (polys ++ [(rgb, pts)]))) acc
  = Some polys ->
  exists drawn,
    polys = acc ++ drawn
    /\ length drawn = length screen_tris
    /\ Forall (fun poly => color_ok (fst poly)) drawn
    /\ map snd drawn = map (fun s : ScreenTri => snd (fst s)) screen_tris.
Proof.
  revert acc. induction screen_tris as [|[[z pts] col] r IH]; intros acc; cbn [for_each_opt].
  - intros [= <-]. exists []. rewrite app_nil_r. repeat split. constructor.
  - destruct (shade_color z col) as [rgb|] eqn:E; [|discriminate]. cbn [bind].
    intros H. destruct (IH _ H) as (drawn & -> & Hlen & Hok & Hpts).
    exists ((rgb, pts) :: drawn). rewrite <- app_assoc. split; [reflexivity|].
    split; [cbn; now rewrite Hlen|]. split.
    + constructor; [exact (shade_color_range _ _ E) | exact Hok].
    + cbn. now rewrite Hpts.
Qed.

(** X13.  Whenever [Game.draw] completes, the row of the horizon is
    within 0..300, one polygon is drawn per surviving triangle, at most
    the level's triangles plus the 150 of the player, and every polygon
    has three points and a colour with its channels in 0..255. *)
Theorem draw_hands_over (g : @Game F) (horizon_y : Z) (polys : list (Color * list (F * F))) :
  draw g = Some (horizon_y, polys) ->
  (0 <= horizon_y <= RENDER_HEIGHT)%Z
  /\ length polys = length (project_all g (level g ++ get_mesh_tris (player g)))
  /\ (length polys <= length (level g) + 150)%nat
  /\ Forall (fun poly => color_ok (fst poly) /\ length (snd poly) = 3%nat) polys.
Proof.
  unfold draw. destruct (ftrunc _) as [po|]; [|discriminate]. cbn [bind].
  destruct (for_each_opt _ _ _) as [ps|] eqn:E; [|discriminate]. cbn [bind].
  intros [= <- <-]. split; [unfold RENDER_HEIGHT; lia|].
  destruct (shading_loop _ _ E) as (drawn & -> & Hlen & Hok & Hpts).
  cbn [app]. rewrite depth_sort_length in Hlen.
  split; [exact Hlen|]. split.
  - rewrite Hlen, project_all_survivors.
    etransitivity; [apply survivors_length|]. rewrite length_app. reflexivity.
  - assert (H3 : Forall (fun n => n = 3%nat) (map (@length _) (map snd drawn))).
    { rewrite Hpts, map_map. apply Forall_map, depth_sort_Forall.
      rewrite project_all_survivors. apply survivors_three_points. }
    rewrite map_map in H3. apply Forall_map in H3.
    apply Forall_and; assumption.
Qed.

End DrawFacts.

Section ExactFacts.
Context {LM : Libm Q}.
Local Open Scope Q_scope.

(** X14.  Every depth [project_triangle] returns is at least
    [(5 + 0.1 + 0.1) * 0.33333], so positive: one vertex is at or beyond
    the near threshold and the other two are clamped to 0.1.  The result
    has three points and the triangle's colour. *)
Theorem projected_depth_is_positive (vw : @View Q) (tri : Triangle.t Q)
    (d : Q) (pts : list (Q * Q)) (col : Color) :
  project vw tri = Some (d, pts, col) ->
  (52 # 10) * (33333 # 100000) <= d
  /\ length pts = 3%nat /\ col = Triangle.color tri.
Proof.
  rewrite project_triangle_unfold.
  destruct (passes_near vw tri) eqn:Hn; [|discriminate].
  destruct (passes_bounds vw tri); [|discriminate].
  intros [= <- <- <-]. split; [|split; reflexivity].
  unfold passes_near in Hn. apply negb_true_iff, near_rejected_false_iff in Hn.
  destruct (clamped_depth_lower_bound vw (Triangle.v1 tri)) as [A1 B1].
  destruct (clamped_depth_lower_bound vw (Triangle.v2 tri)) as [A2 B2].
  destruct (clamped_depth_lower_bound vw (Triangle.v3 tri)) as [A3 B3].
  change (@near_threshold Q exactQ) with 5 in Hn.
  cbn [fadd fmul fltb exactQ] in *.
  change (inject_Z 33333 / inject_Z (Z.pow_pos 10 5)) with (33333 # 100000).
  destruct Hn as [H|[H|H]]; apply Qltb_ge in H; lra.
Qed.

Lemma Qtrunc_eq (a b : Q) : a == b -> Qtrunc a = Qtrunc b.
Proof.
  intros H. apply Z.le_antisymm; apply Qtrunc_le; rewrite H; apply Qle_refl.
Qed.

Lemma shade_of_at (z : Q) :
  (z <= 0 -> 1 <= shade_of z)
  /\ (0 <= z -> shade_of z <= 1)
  /\ (1430 <= z -> shade_of z == 35 # 100).
Proof.
  unfold shade_of, darkening, py_min. cbn [fsub fdiv fltb of_Z exactQ].
  assert (E : @dec Q exactQ 65 2 == 65 # 100) by reflexivity.
  assert (Ez : z / inject_Z 2200 == z * (1 # 2200)) by reflexivity.
  change (inject_Z 1) with 1.
  case_Qltb (@dec Q exactQ 65 2) (z / inject_Z 2200); rewrite ?E, ?Ez in *;
    repeat split; intros; lra.
Qed.

(** X15.  At a non-negative depth the shading never brightens: a
    non-negative channel comes out between 0 and itself.  At depth 0 a
    channel of 0..255 comes out unchanged. *)
Theorem shading_never_brightens (z : Q) (c : Z) :
  0 <= z -> (0 <= c)%Z ->
  exists a : Z,
    shade_channel z c = Some a /\ (0 <= a <= c)%Z
    /\ (z == 0 -> (c <= 255)%Z -> a = c).
Proof.
  intros Hz Hc. rewrite shade_channel_Q. eexists. split; [reflexivity|].
  destruct (shade_of_at z) as (H1 & H2 & _). specialize (H2 Hz).
  pose proof (shade_of_bounds z) as H3.
  assert (Hq : 0 <= inject_Z c).
  { change 0 with (inject_Z 0). rewrite <- Zle_Qle. exact Hc. }
  assert (T : (Qtrunc (inject_Z c * shade_of z) <= c)%Z).
  { rewrite <- (Qtrunc_inject c) at 2. apply Qtrunc_le. nra. }
  split; [lia|]. intros Hz0 Hc'.
  assert (E : inject_Z c * shade_of z == inject_Z c).
  { assert (shade_of z == 1) by (apply Qle_antisym; [exact H2 | apply H1; lra]). nra. }
  rewrite (Qtrunc_eq E), Qtrunc_inject. lia.
Qed.

Lemma shade_channel_from_the_cap (z : Q) (c : Z) :
  1430 <= z -> shade_channel z c = shade_channel 1430 c.
Proof.
  intros Hz. rewrite !shade_channel_Q.
  destruct (shade_of_at z) as (_ & _ & E). specialize (E Hz).
  assert (E' : shade_of 1430 == 35 # 100) by reflexivity.
  assert (Q1 : inject_Z c * shade_of z == inject_Z c * shade_of 1430)
    by (rewrite E, E'; reflexivity).
  rewrite (Qtrunc_eq Q1). reflexivity.
Qed.

Lemma depth_sort_sorted (l : list (@ScreenTri Q)) : Sorted far_first (depth_sort l).
Proof.
  induction l as [|s l IH]; cbn; [constructor|]. now apply insert_by_depth_sorted.
Qed.

Lemma depth_sort_fixes_sorted (l : list (@ScreenTri Q)) :
  StronglySorted far_first l -> depth_sort l = l.
Proof.
  induction 1 as [|s l Hl IH Hs]; [reflexivity|].
  cbn [depth_sort fold_right]. fold (depth_sort l). rewrite IH.
  destruct l as [|s' r]; [reflexivity|]. cbn [insert_by_depth fltb exactQ].
  inversion Hs as [|? ? Hss' _]; subst.
  case_Qltb (depth_of s) (depth_of s'); [|reflexivity].
  unfold far_first in Hss'. lra.
Qed.

(** X17.  Sorting twice is sorting once; a list that is already farthest
    first is returned as it is; the sort keeps the length. *)
Theorem depth_sort_idempotent (l : list (@ScreenTri Q)) :
  depth_sort (depth_sort l) = depth_sort l
  /\ (StronglySorted far_first l -> depth_sort l = l)
  /\ length (depth_sort l) = length l.
Proof.
  split; [|split].
  - apply depth_sort_fixes_sorted, Sorted_StronglySorted;
      [exact far_first_transitive | apply depth_sort_sorted].
  - apply depth_sort_fixes_sorted.
  - apply depth_sort_length.
Qed.

(** X18.  The player's mesh is 150 triangles standing on the player's
    position: every vertex is between the player's height and 39 above
    it.  After any tick, no vertex of the mesh is below the floor. *)
Theorem mesh_stands_on_the_player (p : @Player Q) :
  length (get_mesh_tris p) = 150%nat
  /\ Forall (all_vertices (height_in (Vector3.y (pos p)) (Vector3.y (pos p) + 39)))
            (get_mesh_tris p)
  /\ (forall keys : Keys,
        Forall (all_vertices (fun v => 0 <= Vector3.y v))
               (get_mesh_tris (Player_update keys p))).
Proof.
  assert (H : forall q : @Player Q,
             Forall (all_vertices (height_in (Vector3.y (pos q)) (Vector3.y (pos q) + 39)))
                    (get_mesh_tris q)).
  { intros q. unfold get_mesh_tris, make_part. cbv zeta.
    cbn [map nth app Triangle_init].
    forall_list; unfold all_vertices, height_in, Triangle_init;
      cbn [Triangle.v1 Triangle.v2 Triangle.v3 Vector3.y of_Z fadd exactQ];
      conjs; change (inject_Z 0) with 0;
      repeat match goal with |- context [inject_Z (Zpos ?n)] =>
               change (inject_Z (Zpos n)) with (Zpos n # 1) end; lra. }
  split; [reflexivity|]. split; [apply H|].
  intros keys. specialize (H (Player_update keys p)).
  pose proof (@update_not_below_floor Q exactQ LM keys p eq_refl) as H0.
  apply Qltb_ge in H0. change (@of_Z Q exactQ 0) with 0 in H0.
  eapply Forall_impl; [|exact H].
  intros t (A & B & C). unfold height_in in *. repeat split; lra.
Qed.

End ExactFacts.

(* ================================================================== *)
(** ** Shading beyond the cap, on every instance *)

Section ShadingCap.
Context {F : Type} {SF : Scalar F}.
Local Open Scope scalar_scope.

Lemma shade_of_capped (z : F) : cap_applies z = true -> shade_of z = of_Z 1 - dec 65 2.
Proof.
  unfold cap_applies, shade_of, darkening, py_min. now intros ->.
Qed.

Lemma shade_channel_capped (z1 z2 : F) (c : Z) :
  cap_applies z1 = true -> cap_applies z2 = true ->
  shade_channel z1 c = shade_channel z2 c.
Proof.
  intros H1 H2. unfold shade_channel.
  now rewrite (shade_of_capped z1 H1), (shade_of_capped z2 H2).
Qed.

End ShadingCap.

(** X16.  Beyond the cap the shading no longer depends on the depth.  On
    every instance, doubles included: at two depths at which the program's
    [min] picks the cap 0.65, a channel comes out the same, whatever that
    value is.  In exact arithmetic the cap is reached at
    [0.65 * 2200 = 1430]: from there on a channel comes out as at 1430. *)
Theorem shading_is_flat_beyond_the_cap :
  (forall (F : Type) (SF : Scalar F) (z1 z2 : F) (c : Z),
     cap_applies z1 = true -> cap_applies z2 = true ->
     shade_channel z1 c = shade_channel z2 c)
  /\ (forall (z : Q) (c : Z),
        (1430 <= z)%Q -> shade_channel z c = shade_channel 1430%Q c)
  /\ (forall z : Q, cap_applies z = true <-> (1430 < z)%Q).
Proof.
  split; [intros F SF z1 z2 c; apply shade_channel_capped|].
  split; [intros z c; apply shade_channel_from_the_cap|].
  intros z. unfold cap_applies. cbn [fltb fdiv of_Z exactQ]. rewrite Qltb_lt.
  assert (E : @dec Q exactQ 65 2 == 65 # 100) by reflexivity.
  assert (Ez : (z / inject_Z 2200 == z * (1 # 2200))%Q) by reflexivity.
  rewrite E, Ez. split; intros H; lra.
Qed.

(* ================================================================== *)
(** ** The floor, on doubles *)

Section FloorOnDoubles.
Context {LM : Libm float}.

Lemma run_last (inputs : list Keys) (keys : Keys) (p : @Player float) :
  Player_run (inputs ++ [keys]) p = Player_update keys (Player_run inputs p).
Proof. unfold Player_run. now rewrite fold_left_app. Qed.

(** X19.  On doubles, from every state, a NaN height or velocity
    included, and over every run of one tick or more in which each tick
    runs to its end (no forward key, or a heading that is not an infinity
    where [math.sin] is called), the program's test [pos.y < 0] is false
    afterwards; and a last tick whose integrated height tests below 0
    ends at the height 0 with the vertical velocity 0, grounded. *)
Theorem doubles_never_below_floor (inputs : list Keys) (keys : Keys) (p : @Player float) :
  run_completes (inputs ++ [keys]) p = true ->
  let q := Player_run inputs p in
  PrimFloat.ltb (Vector3.y (pos (Player_run (inputs ++ [keys]) p))) 0%float = false
  /\ (PrimFloat.ltb (integrated_height keys q) 0%float = true ->
      landed (Player_run (inputs ++ [keys]) p)).
Proof.
  intros _. cbv zeta. rewrite run_last. split.
  - exact (@update_not_below_floor float binary64 LM keys _ eq_refl).
  - intros H. destruct (integrate_height keys (Player_run inputs p)) as [Hy _].
    destruct (land_cases (integrate (jump keys (steer keys (Player_run inputs p)))))
      as [Ht _].
    rewrite Hy in Ht. exact (Ht H).
Qed.

End FloorOnDoubles.

(* ================================================================== *)
(** * The further properties at concrete inputs *)

Section FurtherInstances.
Local Open Scope Q_scope.

(** A box 2 wide, 4 high and 6 deep on the origin. *)
Lemma a_box_on_the_origin :
  exists added : list (Triangle.t Q),
    add_box [] 0 0 0 2 4 6 RED BLUE GOLD = [] ++ added
    /\ map Triangle.color added
       = [RED; RED; BLUE; BLUE; BLUE; BLUE; GOLD; GOLD; GOLD; GOLD]
    /\ Forall (all_vertices (in_box 0 0 0 2 4 6)) added
    /\ Forall (some_vertex (fun v => Vector3.y v == 0 + 4)) added.
Proof. apply add_box_shape; discriminate. Defined.

(** The battlements of the front wall: five merlons along X, 240 long. *)
Lemma battlements_of_the_front_wall :
  exists added : list (Triangle.t Q),
    add_battlements [] (-310) 92 (-170) 240 false CASTLE_STONE 5 = [] ++ added
    /\ length added = (10 * Z.to_nat 5)%nat
    /\ Forall (all_vertices (in_box (-310) 92 (-170) (inject_Z 240) 22 16)) added.
Proof. apply (@battlements_span [] (-310) 92 (-170) 240 false CASTLE_STONE 5). lia. Defined.

(** The jump key in the air, on doubles. *)
Lemma space_while_falling :
  @Player_update float _ libm_at_zero press_space falling
  = @Player_update float _ libm_at_zero (release_space press_space) falling.
Proof.
  apply (@no_jump_in_the_air float _ libm_at_zero press_space falling). reflexivity.
Defined.

(** The falling player of the samples loses height on a tick without keys. *)
Lemma falling_player_loses_height :
  Vector3.y (pos (@Player_update Q _ libm_at_zero no_keys falling))
  < Vector3.y (pos (@falling Q _)).
Proof.
  destruct (@gravity_pulls_down libm_at_zero no_keys falling) as (H & _);
    [reflexivity | reflexivity |].
  apply H. reflexivity.
Defined.

(** Three ticks from rest with the computing libm: running, walking,
    gliding. *)
Lemma three_ticks_within_the_bound :
  Qabs (Vector3.x (vel (@Player_run Q _ libm_at_zero
                          [press_shift_w; press_w; no_keys] standing))) <= glide_bound
  /\ Qabs (Vector3.z (vel (@Player_run Q _ libm_at_zero
                             [press_shift_w; press_w; no_keys] standing))) <= glide_bound.
Proof.
  apply (@glide_bound_invariant libm_at_zero [press_shift_w; press_w; no_keys] standing).
  - intros a. cbn. repeat split; discriminate.
  - discriminate.
  - discriminate.
Defined.

(** The first frame of the game without its level, on doubles: the 150
    triangles of the player, of which those in view are drawn. *)
Lemma a_frame_on_doubles :
  exists (horizon_y : Z) (polys : list (Color * list (float * float))),
    @draw float _ libm_at_zero bare_game = Some (horizon_y, polys)
    /\ (0 <= horizon_y <= RENDER_HEIGHT)%Z
    /\ (length polys <= length (level (@bare_game float _)) + 150)%nat
    /\ Forall (fun poly => color_ok (fst poly) /\ length (snd poly) = 3%nat) polys.
Proof.
  destruct (@draw float _ libm_at_zero bare_game) as [[h polys]|] eqn:E;
    [|vm_compute in E; discriminate E].
  exists h, polys. split; [reflexivity|].
  destruct (@draw_hands_over float _ libm_at_zero bare_game h polys E) as (H1 & _ & H3 & H4).
  split; [exact H1|]. split; [exact H3 | exact H4].
Defined.

(** The triangle ahead of the camera: its depth 9.9999 is above the bound. *)
Lemma depth_of_tri_ahead :
  exists (d : Q) (pts : list (Q * Q)) (col : Color),
    project (@axis_view Q _) tri_ahead = Some (d, pts, col)
    /\ (52 # 10) * (33333 # 100000) <= d
    /\ length pts = 3%nat /\ col = RED.
Proof.
  eexists _, _, _. split; [reflexivity|].
  apply (@projected_depth_is_positive (@axis_view Q _) tri_ahead). reflexivity.
Defined.

(** The red channel 220 at depth 1100 comes out at most 220. *)
Lemma shading_of_220 :
  exists a : Z,
    shade_channel 1100 220 = Some a /\ (0 <= a <= 220)%Z
    /\ (1100 == 0 -> (220 <= 255)%Z -> a = 220%Z).
Proof. apply (@shading_never_brightens 1100 220); [discriminate | lia]. Defined.

(** On doubles, the green channel 180 of the ground beyond the cap: 62 at
    depth 5000 as at depth 1e9. *)
Lemma flat_shading_on_doubles :
  @shade_channel float _ 5000%float 180 = @shade_channel float _ 1e9%float 180
  /\ @shade_channel float _ 5000%float 180 = Some 62%Z.
Proof.
  split; [|reflexivity].
  apply (proj1 shading_is_flat_beyond_the_cap float binary64); reflexivity.
Defined.

(** Two ticks from a state whose height is not a number: walking, then no
    keys.  The heading is 0, so both ticks run to their end. *)
Lemma lost_player_is_not_below_the_floor :
  PrimFloat.ltb
    (Vector3.y (pos (@Player_run float _ libm_at_zero ([press_w] ++ [no_keys]) lost_player)))
    0%float = false.
Proof.
  apply (@doubles_never_below_floor libm_at_zero [press_w] no_keys lost_player).
  reflexivity.
Defined.

End FurtherInstances.
